(** * generate_test_audio.py: a shallow embedding and its properties

    The script synthesises a fixed catalog of test signals with numpy / scipy
    and stores them as 16-bit PCM WAV files.

    Modelling conventions.
    - Python floats and numpy float arrays are real numbers ([R]) and lists of
      reals: arithmetic is exact.  The narrowing [astype(np.float32)] is kept
      as an uninterpreted function of the numeric backend, so every statement
      holds for whatever rounding it performs.
    - Python ints are [Z]; [np.int16] values are [Z] with the two's-complement
      wrap-around written out.
    - An exception is a [Raise] result; functions that touch the file system,
      the console or numpy's global random state run in a state-and-error
      monad over [World].
    - numpy's random generator and scipy's filter design / filtering are not
      part of the script: they are fields of the class [NumericBackend].
    - The file system is an association list from paths to nodes, with a
      flag for a file system that refuses writes; the WAV container is the
      list of its bytes.
    - [World] carries one ghost field, the number of buffers generated so
      far, so that "before any generation" can be stated. *)

From Stdlib Require Import Reals Lra Lia ZArith String Ascii Bool List.
Import ListNotations.

Set Implicit Arguments.

(** ** Exceptions and fallible results *)

Inductive exn : Type :=
| ValueError
| StructError
| FileExistsError
| FileNotFoundError
| NotADirectoryError
| IsADirectoryError
| PermissionError.

Inductive result (A : Type) : Type :=
| Ok (a : A)
| Raise (e : exn).

Arguments Ok {A} a.
Arguments Raise {A} e.

Definition rbind {A B} (r : result A) (k : A -> result B) : result B :=
  match r with
  | Ok a => k a
  | Raise e => Raise e
  end.

(** ** Python and numpy primitives used by the generators *)

Module Py.

Local Open Scope R_scope.

(** Largest integer below or equal to [x]. *)
Definition floor (x : R) : Z := (up x - 1)%Z.

(** [int(x)] on a float: truncation toward zero. *)
Definition int (x : R) : Z :=
  if Rle_dec 0 x then floor x else (- floor (- x))%Z.

(** [np.linspace(start, stop, num, False)]: [num] points, the end point
    left out, [step = (stop - start) / num], point [i] is
    [i * step + start].  A negative [num] is a ValueError. *)
Definition linspace (start stop : R) (num : Z) : result (list R) :=
  if (num <? 0)%Z then Raise ValueError
  else
    let step := (stop - start) / IZR num in
    Ok (map (fun i => INR i * step + start) (seq 0 (Z.to_nat num))).

(** [np.zeros(n)] and [np.zeros_like(t)]. *)
Definition zeros (n : Z) : result (list R) :=
  if (n <? 0)%Z then Raise ValueError else Ok (repeat 0 (Z.to_nat n)).

Definition zeros_like (t : list R) : list R := repeat 0 (length t).

(** [np.max]: the reduction has no identity, an empty array is a
    ValueError. *)
Definition max (xs : list R) : result R :=
  match xs with
  | [] => Raise ValueError
  | x :: rest => Ok (fold_left Rmax rest x)
  end.

Definition abs (xs : list R) : list R := map Rabs xs.

(** Element-wise [u + v] of two arrays of the same shape. *)
Fixpoint add (u v : list R) : list R :=
  match u, v with
  | x :: u', y :: v' => (x + y) :: add u' v'
  | _, _ => []
  end.

(** Reduction of a 16-bit pattern to the signed range. *)
Definition wrap16 (z : Z) : Z := ((z + 32768) mod 65536 - 32768)%Z.

(** [astype(np.int16)] on a float: the fraction is dropped (truncation
    toward zero) and the integer is narrowed to 16 bits.  numpy leaves the
    narrowing of an out-of-range value to the platform's conversion; it is
    taken here as the two's-complement wrap-around, with no saturation. *)
Definition astype_int16 (x : R) : Z := wrap16 (int x).

End Py.

(** ** The numeric backend *)

Class NumericBackend : Type := {
  (** state of numpy's global random generator *)
  Rng : Type;
  (** [x.astype(np.float32)] on one element *)
  astype_float32 : R -> R;
  (** [np.random.normal(loc, scale, size)] *)
  random_normal : R -> R -> Z -> Rng -> result (list R) * Rng;
  (** [signal.butter(N, Wn, btype='low', analog=False)], giving [(b, a)] *)
  butter : Z -> R -> result (list R * list R);
  (** [signal.filtfilt(b, a, x)] *)
  filtfilt : list R -> list R -> list R -> result (list R)
}.

(** ** Signal generators *)

Section Generators.

Context {L : NumericBackend}.
Local Open Scope R_scope.

Definition generate_sine_wave
    (frequency sample_rate duration amplitude : R) : result (list R) :=
  rbind (Py.linspace 0 duration (Py.int (sample_rate * duration))) (fun t =>
  let wave := map (fun ti => amplitude * sin (2 * PI * frequency * ti)) t in
  Ok (map astype_float32 wave)).

(** The loop body [wave += amp * np.sin(2 * np.pi * freq * t)]. *)
Definition add_tone (t wave : list R) (fa : R * R) : list R :=
  let '(freq, amp) := fa in
  Py.add wave (map (fun ti => amp * sin (2 * PI * freq * ti)) t).

(** The wave after the [for freq, amp in zip(...)] loop. *)
Definition tone_sum (frequencies amplitudes t : list R) : list R :=
  fold_left (add_tone t) (combine frequencies amplitudes) (Py.zeros_like t).

Definition generate_multi_tone
    (frequencies amplitudes : list R) (sample_rate duration : R)
    : result (list R) :=
  rbind (Py.linspace 0 duration (Py.int (sample_rate * duration))) (fun t =>
  let wave := tone_sum frequencies amplitudes t in
  rbind (Py.max (Py.abs wave)) (fun max_val =>
  let wave :=
    if Rgt_dec max_val 1
    then map (fun x => x / max_val * (9 / 10)) wave
    else wave in
  Ok (map astype_float32 wave))).

Definition sweep_phase (start_freq end_freq duration t : R) : R :=
  2 * PI * (start_freq * t
            + (end_freq - start_freq) * t ^ 2 / (2 * duration)).

Definition generate_sweep
    (start_freq end_freq sample_rate duration amplitude : R)
    : result (list R) :=
  rbind (Py.linspace 0 duration (Py.int (sample_rate * duration))) (fun t =>
  let phase := map (sweep_phase start_freq end_freq duration) t in
  let wave := map (fun p => amplitude * sin p) phase in
  Ok (map astype_float32 wave)).

End Generators.

(** ** The WAV container written by [scipy.io.wavfile.write]

    The library is not part of the script.  Bytes are integers in
    [0, 256).  Only the case the script uses is modelled: one-dimensional
    [int16] data, hence PCM format tag 1, one channel, 16 bits per sample,
    no [fact] chunk and no pad byte. *)

Module Wav.

Local Open Scope Z_scope.

Definition le16 (v : Z) : list Z := [v mod 256; (v / 256) mod 256].

Definition le32 (v : Z) : list Z :=
  [v mod 256; (v / 256) mod 256; (v / 65536) mod 256;
   (v / 16777216) mod 256].

(** [struct.pack('<H', v)] and [struct.pack('<I', v)]: a value out of the
    field's range is a [struct.error]. *)
Definition pack_H (v : Z) : result (list Z) :=
  if (0 <=? v) && (v <? 65536) then Ok (le16 v) else Raise StructError.

Definition pack_I (v : Z) : result (list Z) :=
  if (0 <=? v) && (v <? 4294967296) then Ok (le32 v) else Raise StructError.

Definition RIFF : list Z := [82; 73; 70; 70].
Definition WAVE : list Z := [87; 65; 86; 69].
Definition fmt_ : list Z := [102; 109; 116; 32].
Definition data_ : list Z := [100; 97; 116; 97].

(** Little-endian image of an [int16] array. *)
Definition tobytes (data : list Z) : list Z :=
  flat_map (fun s => le16 (s mod 65536)) data.

(** Modelled from the spec: the canonical uncompressed PCM container of
    the data model -- a 44-byte header that stores the sample rate, then
    mono 16-bit signed little-endian samples -- with the fields in the order
    in which [write] packs them, and the RIFF size as [write] patches it at
    the end.  A field that does not fit, or data beyond the 32-bit size
    limit, is an error. *)
Definition encode (rate : Z) (data : list Z) : result (list Z) :=
  let channels := 1 in
  let bit_depth := 2 * 8 in
  let bytes_per_second := rate * (bit_depth / 8) * channels in
  let block_align := channels * (bit_depth / 8) in
  let nbytes := 2 * Z.of_nat (length data) in
  rbind (pack_H 1) (fun format_tag =>
  rbind (pack_H channels) (fun f_channels =>
  rbind (pack_I rate) (fun f_rate =>
  rbind (pack_I bytes_per_second) (fun f_bps =>
  rbind (pack_H block_align) (fun f_align =>
  rbind (pack_H bit_depth) (fun f_bits =>
  let fmt_chunk_data :=
    format_tag ++ f_channels ++ f_rate ++ f_bps ++ f_align ++ f_bits in
  rbind (pack_I (Z.of_nat (length fmt_chunk_data))) (fun f_len =>
  let header_len := 4 + 4 + 4 + 4 + 4 + Z.of_nat (length fmt_chunk_data) in
  if (header_len - 4 - 4) + (4 + 4 + nbytes) >? 4294967295
  then Raise ValueError
  else
    rbind (pack_I nbytes) (fun f_nbytes =>
    let size := header_len + 4 + 4 + nbytes in
    rbind (pack_I (size - 8)) (fun f_size =>
    Ok (RIFF ++ f_size ++ WAVE ++ fmt_ ++ f_len ++ fmt_chunk_data
        ++ data_ ++ f_nbytes ++ tobytes data)))))))))).

(** Little-endian decoding, unsigned and as a 16-bit signed sample. *)
Definition decode_le (bs : list Z) : Z :=
  fold_right (fun b acc => b + 256 * acc) 0 bs.

Definition signed16 (u : Z) : Z := if u <? 32768 then u else u - 65536.

Fixpoint frombytes (bs : list Z) : list Z :=
  match bs with
  | b0 :: b1 :: rest => signed16 (b0 + 256 * b1) :: frombytes rest
  | _ => []
  end.

Definition bytes_eqb (u v : list Z) : bool :=
  if list_eq_dec Z.eq_dec u v then true else false.

Definition field (off len : nat) (bytes : list Z) : list Z :=
  firstn len (skipn off bytes).

(** Modelled from the spec: the read-back of the container that the
    round-trip property refers to.  The script only writes; this reader
    accepts the canonical 44-byte header of a mono 16-bit PCM file and
    returns the sample rate stored in it with the decoded samples. *)
Definition read (bytes : list Z) : option (Z * list Z) :=
  if bytes_eqb (field 0 4 bytes) RIFF
     && bytes_eqb (field 8 4 bytes) WAVE
     && bytes_eqb (field 12 4 bytes) fmt_
     && (decode_le (field 16 4 bytes) =? 16)
     && (decode_le (field 20 2 bytes) =? 1)
     && (decode_le (field 22 2 bytes) =? 1)
     && (decode_le (field 34 2 bytes) =? 16)
     && bytes_eqb (field 36 4 bytes) data_
  then
    let rate := decode_le (field 24 4 bytes) in
    let nbytes := decode_le (field 40 4 bytes) in
    Some (rate, frombytes (firstn (Z.to_nat nbytes) (skipn 44 bytes)))
  else None.

End Wav.

(** ** The file system, as far as the script touches it

    Paths are strings.  [nodes] is an association list, most recent binding
    first: creating a directory or writing a file adds a binding in front,
    which shadows an older one for the same path. *)

Inductive node : Type :=
| Dir
| File (content : list Z).

Record filesystem : Type := {
  nodes : list (string * node);
  read_only : bool
}.

Module Os.

Local Open Scope string_scope.

Fixpoint lookup (p : string) (l : list (string * node)) : option node :=
  match l with
  | [] => None
  | (q, n) :: l' => if String.eqb p q then Some n else lookup p l'
  end.

Definition bind_node (p : string) (n : node) (fs : filesystem)
    : filesystem :=
  {| nodes := (p, n) :: nodes fs; read_only := read_only fs |}.

Definition starts_with_sep (s : string) : bool :=
  match s with
  | String c _ => Ascii.eqb c "/"
  | EmptyString => false
  end.

Fixpoint ends_with_sep (s : string) : bool :=
  match s with
  | EmptyString => false
  | String c EmptyString => Ascii.eqb c "/"
  | String _ r => ends_with_sep r
  end.

Fixpoint has_sep (s : string) : bool :=
  match s with
  | EmptyString => false
  | String c r => Ascii.eqb c "/" || has_sep r
  end.

(** [os.path.join(a, b)] for two components. *)
Definition path_join (a b : string) : string :=
  if starts_with_sep b then b
  else if String.eqb a EmptyString then b
  else if ends_with_sep a then a ++ b
  else a ++ "/" ++ b.

(** The directory part of a path: what precedes its last separator; the
    empty string stands for the working directory. *)
Fixpoint parent (s : string) : string :=
  match s with
  | EmptyString => EmptyString
  | String c r => if has_sep r then String c (parent r) else EmptyString
  end.

(** [os.path.exists(p)] *)
Definition path_exists (p : string) (fs : filesystem) : bool :=
  match lookup p (nodes fs) with
  | Some _ => true
  | None => false
  end.

(** What the directory part of [p] must satisfy before an entry can be
    created at [p]. *)
Definition check_parent (p : string) (fs : filesystem) : result unit :=
  if String.eqb (parent p) EmptyString then Ok tt
  else
    match lookup (parent p) (nodes fs) with
    | Some Dir => Ok tt
    | Some (File _) => Raise NotADirectoryError
    | None => Raise FileNotFoundError
    end.

(** [os.makedirs(p)] for a path whose directory part exists (the script's
    only argument is the single component [OUTPUT_DIR], so no intermediate
    directory is ever created): it fails when [p] exists already or the
    file system refuses the creation. *)
Definition makedirs (p : string) (fs : filesystem) : result filesystem :=
  rbind (check_parent p fs) (fun _ =>
  if path_exists p fs then Raise FileExistsError
  else if read_only fs then Raise PermissionError
  else Ok (bind_node p Dir fs)).

(** [open(p, 'wb')]: whether the file can be created or truncated. *)
Definition open_wb (p : string) (fs : filesystem) : result unit :=
  rbind (check_parent p fs) (fun _ =>
  match lookup p (nodes fs) with
  | Some Dir => Raise IsADirectoryError
  | _ => if read_only fs then Raise PermissionError else Ok tt
  end).

End Os.

(** ** The world the script runs in, and its monad *)

Section Script.

Context {L : NumericBackend}.

(** [generated] is a ghost counter: the number of signal buffers the
    driver has obtained so far.  It is not a program variable; it lets
    ordering properties of [main] be stated. *)
Record World : Type := {
  fs : filesystem;
  stdout : list string;
  rng : Rng;
  generated : nat
}.

Definition M (A : Type) : Type := World -> result A * World.

Definition ret {A} (a : A) : M A := fun w => (Ok a, w).

Definition bind {A B} (m : M A) (k : A -> M B) : M B :=
  fun w =>
    match m w with
    | (Ok a, w') => k a w'
    | (Raise e, w') => (Raise e, w')
    end.

Definition lift {A} (r : result A) : M A := fun w => (r, w).

Definition set_fs (f : filesystem) (w : World) : World :=
  {| fs := f; stdout := stdout w; rng := rng w; generated := generated w |}.

Definition set_rng (g : Rng) (w : World) : World :=
  {| fs := fs w; stdout := stdout w; rng := g; generated := generated w |}.

Definition print (line : string) : M unit :=
  fun w =>
    (Ok tt,
     {| fs := fs w; stdout := stdout w ++ [line]; rng := rng w;
        generated := generated w |}).

Definition tick : M unit :=
  fun w =>
    (Ok tt,
     {| fs := fs w; stdout := stdout w; rng := rng w;
        generated := S (generated w) |}).

End Script.

Declare Scope monad_scope.
Delimit Scope monad_scope with monad.
Notation "x <- m ;; k" := (bind m (fun x => k))
  (at level 61, m at next level, right associativity) : monad_scope.
Notation "m ;; k" := (bind m (fun _ => k))
  (at level 61, right associativity) : monad_scope.

Section Driver.

Context {L : NumericBackend}.
Local Open Scope string_scope.
Local Open Scope monad_scope.

Definition SAMPLE_RATE : Z := 44100.
Definition DURATION : R := 5.
Definition OUTPUT_DIR : string := "test_audio".

(** How [print] shows the two numeric constants. *)
Definition SAMPLE_RATE_str : string := "44100".
Definition DURATION_str : string := "5.0".

Definition nl : string := String (ascii_of_nat 10) EmptyString.

Definition os_path_exists (p : string) : M bool :=
  fun w => (Ok (Os.path_exists p (fs w)), w).

Definition os_makedirs (p : string) : M unit :=
  fun w =>
    match Os.makedirs p (fs w) with
    | Ok f => (Ok tt, set_fs f w)
    | Raise e => (Raise e, w)
    end.

Definition ensure_output_dir : M unit :=
  present <- os_path_exists OUTPUT_DIR ;;
  if negb present
  then os_makedirs OUTPUT_DIR ;;
       print ("Created directory: " ++ OUTPUT_DIR)
  else ret tt.

Definition np_random_normal (loc scale : R) (size : Z) : M (list R) :=
  fun w =>
    let '(r, g) := random_normal loc scale size (rng w) in
    (r, set_rng g w).

Definition generate_lowpass_noise
    (cutoff_freq sample_rate duration amplitude : R) : M (list R) :=
  noise <- np_random_normal 0 amplitude
             (Py.int (sample_rate * duration)) ;;
  let nyquist := (sample_rate / 2)%R in
  let normal_cutoff := (cutoff_freq / nyquist)%R in
  ba <- lift (butter 4 normal_cutoff) ;;
  let '(b, a) := ba in
  filtered_noise <- lift (filtfilt b a noise) ;;
  ret (map astype_float32 filtered_noise).

(** [wavfile.write(path, rate, data)]: the file is opened first; if the
    container cannot be built the file is left empty. *)
Definition wavfile_write (path : string) (rate : Z) (data : list Z)
    : M unit :=
  fun w =>
    match Os.open_wb path (fs w) with
    | Raise e => (Raise e, w)
    | Ok _ =>
        match Wav.encode rate data with
        | Raise e => (Raise e, set_fs (Os.bind_node path (File []) (fs w)) w)
        | Ok bytes => (Ok tt, set_fs (Os.bind_node path (File bytes) (fs w)) w)
        end
    end.

Definition quantize (x : R) : Z := Py.astype_int16 (x * 32767).

Definition save_wav (filename : string) (data : list R) (sample_rate : Z)
    : M unit :=
  let data_int16 := map quantize data in
  let filepath := Os.path_join OUTPUT_DIR filename in
  wavfile_write filepath sample_rate data_int16 ;;
  print ("Generated: " ++ filepath).

Fixpoint for_each {A} (items : list A) (body : A -> M unit) : M unit :=
  match items with
  | [] => ret tt
  | x :: rest => body x ;; for_each rest body
  end.

Definition test_frequencies : list (R * string) :=
  [ (50, "50hz_pure_tone.wav");
    (100, "100hz_pure_tone.wav");
    (200, "200hz_pure_tone.wav");
    (440, "440hz_pure_tone.wav");
    (1000, "1000hz_pure_tone.wav");
    (5000, "5000hz_pure_tone.wav") ]%R.

Definition cutoff_frequencies : list (R * string) :=
  [ (50, "lowpass_50hz_noise.wav");
    (100, "lowpass_100hz_noise.wav");
    (200, "lowpass_200hz_noise.wav");
    (500, "lowpass_500hz_noise.wav") ]%R.

Definition multi_tones : list (list R * list R * string) :=
  [ ([100; 200; 300], [3 / 10; 2 / 10; 1 / 10],
     "multi_tone_100_200_300hz.wav");
    ([50; 100; 500; 1000], [25 / 100; 25 / 100; 15 / 100; 1 / 10],
     "multi_tone_50_100_500_1000hz.wav");
    ([440; 880; 1320], [3 / 10; 2 / 10; 15 / 100],
     "multi_tone_harmonic_440hz.wav") ]%R.

Definition sweeps : list (R * R * string) :=
  [ (20, 200, "sweep_20_to_200hz.wav");
    (100, 5000, "sweep_100_to_5000hz.wav");
    (5000, 20000, "sweep_5k_to_20khz.wav") ]%R.

Definition low_freqs : list (R * string) :=
  [ (20, "20hz_pure_tone.wav");
    (30, "30hz_pure_tone.wav");
    (40, "40hz_pure_tone.wav");
    (60, "60hz_pure_tone.wav");
    (80, "80hz_pure_tone.wav");
    (90, "90hz_pure_tone.wav") ]%R.

Definition main : M unit :=
  ensure_output_dir ;;
  print "Generating test audio files..." ;;
  print ("Sample rate: " ++ SAMPLE_RATE_str ++ " Hz") ;;
  print ("Duration: " ++ DURATION_str ++ " seconds") ;;
  print ("Output directory: " ++ OUTPUT_DIR ++ nl) ;;
  print "1. Generating pure sine waves..." ;;
  for_each test_frequencies (fun '(freq, filename) =>
    wave <- lift (generate_sine_wave freq (IZR SAMPLE_RATE) DURATION
                    (1 / 2)) ;;
    tick ;;
    save_wav filename wave SAMPLE_RATE) ;;
  print (nl ++ "2. Generating low-pass filtered noise...") ;;
  for_each cutoff_frequencies (fun '(cutoff, filename) =>
    noise <- generate_lowpass_noise cutoff (IZR SAMPLE_RATE) DURATION
               (3 / 10) ;;
    tick ;;
    save_wav filename noise SAMPLE_RATE) ;;
  print (nl ++ "3. Generating multi-tone signals...") ;;
  for_each multi_tones (fun '(freqs, amps, filename) =>
    wave <- lift (generate_multi_tone freqs amps (IZR SAMPLE_RATE)
                    DURATION) ;;
    tick ;;
    save_wav filename wave SAMPLE_RATE) ;;
  print (nl ++ "4. Generating frequency sweeps...") ;;
  for_each sweeps (fun '(start, stop, filename) =>
    wave <- lift (generate_sweep start stop (IZR SAMPLE_RATE) DURATION
                    (1 / 2)) ;;
    tick ;;
    save_wav filename wave SAMPLE_RATE) ;;
  print (nl ++ "5. Generating silence (baseline)...") ;;
  silence <- lift (Py.zeros (Py.int (IZR SAMPLE_RATE * DURATION))) ;;
  tick ;;
  save_wav "silence.wav" silence SAMPLE_RATE ;;
  print (nl ++ "6. Generating very low frequency signals...") ;;
  for_each low_freqs (fun '(freq, filename) =>
    wave <- lift (generate_sine_wave freq (IZR SAMPLE_RATE) DURATION
                    (1 / 2)) ;;
    tick ;;
    save_wav filename wave SAMPLE_RATE) ;;
  print (nl ++ "âœ… All test files generated in '" ++ OUTPUT_DIR
         ++ "' directory!") ;;
  print (nl ++ "Expected FFT results:") ;;
  print "  - Pure tones: Should show peak at corresponding frequency bin" ;;
  print "  - Low-pass noise: Should show energy only below cutoff frequency" ;;
  print "  - Multi-tone: Should show peaks at all component frequencies" ;;
  print "  - Sweeps: Should show energy across the swept frequency range" ;;
  print "  - Silence: Should show minimal/no energy across all frequencies".

End Driver.

(** ** Reference notions the properties are stated against *)



(** The value at time [ti] of the sum of tones
    [amp_j * sin(2 * pi * freq_j * ti)] over a list of (frequency, amplitude)
    pairs: the point-wise reading of what the multi-tone loop accumulates. *)
Definition tone_series (pairs : list (R * R)) (ti : R) : R :=
  fold_left (fun acc fa => (acc + snd fa * sin (2 * PI * fst fa * ti))%R)
            pairs 0%R.

(** A backend with exact narrowing, a constant random source and a
    pass-through filter.  It is not numpy; it shows that the assumptions
    made on a backend below can be met, and gives closed runs of the
    script. *)
Definition exact_backend : NumericBackend :=
  {| Rng := unit;
     astype_float32 := fun x => x;
     random_normal := fun _ _ size g => (Py.zeros size, g);
     butter := fun _ _ => Ok ([1%R], [1%R]);
     filtfilt := fun _ _ x => Ok x |}.

(** ** Vocabulary for runs of the script *)

Section RunVocabulary.

Context {L : NumericBackend}.
Local Open Scope string_scope.

(** [runs m w Q]: from the world [w] the computation [m] returns normally,
    with a value and a final world that satisfy [Q]. *)
Definition runs {A} (m : M A) (w : World) (Q : A -> World -> Prop) : Prop :=
  exists a w', m w = (Ok a, w') /\ Q a w'.

(** [fails m w e Q]: from [w] the computation [m] raises [e], leaving a
    world that satisfies [Q]. *)
Definition fails {A} (m : M A) (w : World) (e : exn) (Q : World -> Prop)
    : Prop :=
  exists w', m w = (Raise e, w') /\ Q w'.

(** The names [main] passes to [save_wav], in the order of the calls. *)
Definition catalog_filenames : list string :=
  [ "50hz_pure_tone.wav"; "100hz_pure_tone.wav"; "200hz_pure_tone.wav";
    "440hz_pure_tone.wav"; "1000hz_pure_tone.wav"; "5000hz_pure_tone.wav";
    "lowpass_50hz_noise.wav"; "lowpass_100hz_noise.wav";
    "lowpass_200hz_noise.wav"; "lowpass_500hz_noise.wav";
    "multi_tone_100_200_300hz.wav"; "multi_tone_50_100_500_1000hz.wav";
    "multi_tone_harmonic_440hz.wav";
    "sweep_20_to_200hz.wav"; "sweep_100_to_5000hz.wav";
    "sweep_5k_to_20khz.wav";
    "silence.wav";
    "20hz_pure_tone.wav"; "30hz_pure_tone.wav"; "40hz_pure_tone.wav";
    "60hz_pure_tone.wav"; "80hz_pure_tone.wav"; "90hz_pure_tone.wav" ].

Definition noise_filenames : list string :=
  [ "lowpass_50hz_noise.wav"; "lowpass_100hz_noise.wav";
    "lowpass_200hz_noise.wav"; "lowpass_500hz_noise.wav" ].

Definition output_path (filename : string) : string :=
  Os.path_join OUTPUT_DIR filename.

Definition buffer_of (r : result (list R)) : list R :=
  match r with
  | Ok buf => buf
  | Raise _ => []
  end.

(** The bytes [save_wav] stores for a buffer at the script's sample rate. *)
Definition wav_image (data : list R) : list Z :=
  match Wav.encode SAMPLE_RATE (map quantize data) with
  | Ok bytes => bytes
  | Raise _ => []
  end.

Definition pure_tone_file (freq : R) : list Z :=
  wav_image (buffer_of
    (generate_sine_wave freq (IZR SAMPLE_RATE) DURATION (1 / 2))).

Definition multi_tone_file (freqs amps : list R) : list Z :=
  wav_image (buffer_of
    (generate_multi_tone freqs amps (IZR SAMPLE_RATE) DURATION)).

Definition sweep_file (start stop : R) : list Z :=
  wav_image (buffer_of
    (generate_sweep start stop (IZR SAMPLE_RATE) DURATION (1 / 2))).

Definition silence_file : list Z :=
  wav_image (buffer_of (Py.zeros (Py.int (IZR SAMPLE_RATE * DURATION)))).

(** What [generate_lowpass_noise] computes from a state of the random
    generator: the buffer (or the exception), and the next state. *)
Definition noise_draw (cutoff_freq sample_rate duration amplitude : R)
    (g : Rng) : result (list R) * Rng :=
  let '(drawn, g') :=
    random_normal 0 amplitude (Py.int (sample_rate * duration)) g in
  (rbind drawn (fun noise =>
   rbind (butter 4 (cutoff_freq / (sample_rate / 2))) (fun ba =>
   let '(b, a) := ba in
   rbind (filtfilt b a noise) (fun filtered_noise =>
   Ok (map astype_float32 filtered_noise)))),
   g').

Definition catalog_noise (cutoff : R) (g : Rng) : result (list R) * Rng :=
  noise_draw cutoff (IZR SAMPLE_RATE) DURATION (3 / 10) g.

(** The state of the random generator after the noise files for [cutoffs]
    have been generated, starting from [g]. *)
Definition rng_after (cutoffs : list R) (g : Rng) : Rng :=
  fold_left (fun g' cutoff => snd (catalog_noise cutoff g')) cutoffs g.

Definition noise_file (cutoff : R) (g : Rng) : list Z :=
  wav_image (buffer_of (fst (catalog_noise cutoff g))).

(** The four noise files of a run that starts with the random generator in
    state [g]. *)
Definition noise_files (g : Rng) : list Z * list Z * list Z * list Z :=
  (noise_file 50 g,
   noise_file 100 (rng_after [50%R] g),
   noise_file 200 (rng_after [50%R; 100%R] g),
   noise_file 500 (rng_after [50%R; 100%R; 200%R] g)).

(** The files of a complete run whose four noise files hold [n50], [n100],
    [n200] and [n500], in the order in which they are written. *)
Definition catalog_files (n50 n100 n200 n500 : list Z)
    : list (string * list Z) :=
  [ (output_path "50hz_pure_tone.wav", pure_tone_file 50);
    (output_path "100hz_pure_tone.wav", pure_tone_file 100);
    (output_path "200hz_pure_tone.wav", pure_tone_file 200);
    (output_path "440hz_pure_tone.wav", pure_tone_file 440);
    (output_path "1000hz_pure_tone.wav", pure_tone_file 1000);
    (output_path "5000hz_pure_tone.wav", pure_tone_file 5000);
    (output_path "lowpass_50hz_noise.wav", n50);
    (output_path "lowpass_100hz_noise.wav", n100);
    (output_path "lowpass_200hz_noise.wav", n200);
    (output_path "lowpass_500hz_noise.wav", n500);
    (output_path "multi_tone_100_200_300hz.wav",
     multi_tone_file [100; 200; 300] [3 / 10; 2 / 10; 1 / 10]);
    (output_path "multi_tone_50_100_500_1000hz.wav",
     multi_tone_file [50; 100; 500; 1000]
                     [25 / 100; 25 / 100; 15 / 100; 1 / 10]);
    (output_path "multi_tone_harmonic_440hz.wav",
     multi_tone_file [440; 880; 1320] [3 / 10; 2 / 10; 15 / 100]);
    (output_path "sweep_20_to_200hz.wav", sweep_file 20 200);
    (output_path "sweep_100_to_5000hz.wav", sweep_file 100 5000);
    (output_path "sweep_5k_to_20khz.wav", sweep_file 5000 20000);
    (output_path "silence.wav", silence_file);
    (output_path "20hz_pure_tone.wav", pure_tone_file 20);
    (output_path "30hz_pure_tone.wav", pure_tone_file 30);
    (output_path "40hz_pure_tone.wav", pure_tone_file 40);
    (output_path "60hz_pure_tone.wav", pure_tone_file 60);
    (output_path "80hz_pure_tone.wav", pure_tone_file 80);
    (output_path "90hz_pure_tone.wav", pure_tone_file 90) ]%R.

Definition file_node (e : string * list Z) : string * node :=
  (fst e, File (snd e)).

(** Paths bound to regular files, most recent first. *)
Fixpoint files_of (l : list (string * node)) : list string :=
  match l with
  | [] => []
  | (p, File _) :: l' => p :: files_of l'
  | (_, Dir) :: l' => files_of l'
  end.

(** The file system lets the catalog be written: it is writable, the output
    directory is there, and no catalog path names a directory. *)
Definition ready (f : filesystem) : Prop :=
  read_only f = false
  /\ Os.lookup OUTPUT_DIR (nodes f) = Some Dir
  /\ Forall (fun name => Os.lookup (output_path name) (nodes f) <> Some Dir)
            catalog_filenames.

(** The same, before [ensure_output_dir]: the output directory may still
    be missing. *)
Definition startable (f : filesystem) : Prop :=
  read_only f = false
  /\ (Os.lookup OUTPUT_DIR (nodes f) = None
      \/ Os.lookup OUTPUT_DIR (nodes f) = Some Dir)
  /\ Forall (fun name => Os.lookup (output_path name) (nodes f) <> Some Dir)
            catalog_filenames.

(** The bindings of the file system once [ensure_output_dir] has run. *)
Definition prepared_nodes (f : filesystem) : list (string * node) :=
  if Os.path_exists OUTPUT_DIR f then nodes f
  else (OUTPUT_DIR, Dir) :: nodes f.

(** From [w] to [w'] exactly the files [files] were written, in that order,
    one generated buffer each. *)
Definition wrote (files : list (string * list Z)) (w w' : World) : Prop :=
  nodes (fs w') = (rev (map file_node files) ++ nodes (fs w))%list
  /\ read_only (fs w') = read_only (fs w)
  /\ generated w' = (generated w + length files)%nat.

(** A buffer small enough for the 32-bit size fields of a WAV file. *)
Definition fits (buf : list R) : Prop :=
  (2 * Z.of_nat (length buf) + 36 <= 4294967295)%Z.

(** The running invariant of the driver: the catalog can still be written,
    [files] is what has been written since [w0], and the random generator
    is in state [g]. *)
Definition progress (files : list (string * list Z)) (g : Rng)
    (w0 w : World) : Prop :=
  ready (fs w) /\ wrote files w0 w /\ rng w = g.

(** The noise generator succeeds on the catalog's cutoffs, with a buffer
    that fits a WAV file. *)
Definition noise_available : Prop :=
  forall (w : World) (cutoff : R),
    In cutoff (map fst cutoff_frequencies) ->
    exists buf g,
      generate_lowpass_noise cutoff (IZR SAMPLE_RATE) DURATION (3 / 10) w
      = (Ok buf, set_rng g w)
      /\ fits buf.


End RunVocabulary.

(** A backend whose random source returns the constant [loc + scale * g]
    in state [g] and moves on to state [g + 1]: the simplest source whose
    draws depend on its state. *)
Definition seeded_backend : NumericBackend :=
  {| Rng := Z;
     astype_float32 := fun x => x;
     random_normal := fun loc scale size g =>
       (rbind (Py.zeros size) (fun z =>
          Ok (map (fun _ => (loc + scale * IZR g)%R) z)),
        (g + 1)%Z);
     butter := fun _ _ => Ok ([1%R], [1%R]);
     filtfilt := fun _ _ x => Ok x |}.

Definition seeded_world (g : Z) : World (L := seeded_backend) :=
  @Build_World seeded_backend
    {| nodes := []; read_only := false |} [] g 0.

(** A fresh working directory for [exact_backend], and one in which the
    output path is taken by a regular file. *)
Definition empty_world : World (L := exact_backend) :=
  @Build_World exact_backend
    {| nodes := []; read_only := false |} [] tt 0.

Definition collision_world : World (L := exact_backend) :=
  @Build_World exact_backend
    {| nodes := [(OUTPUT_DIR, File [])]; read_only := false |} [] tt 0.

Definition prepared_world : World (L := exact_backend) :=
  @Build_World exact_backend
    {| nodes := [(OUTPUT_DIR, Dir)]; read_only := false |} [] tt 0.

Definition read_only_world : World (L := exact_backend) :=
  @Build_World exact_backend
    {| nodes := []; read_only := true |} [] tt 0.

(** ** Vocabulary for further properties of the script *)

Section MoreVocabulary.

Context {L : NumericBackend}.
Local Open Scope string_scope.



(** The line [save_wav] prints for a file. *)
Definition generated_line (filename : string) : string :=
  "Generated: " ++ output_path filename.

(** The files of the first loop of [main]. *)
Definition first_tone_files : list (string * list Z) :=
  [ (output_path "50hz_pure_tone.wav", pure_tone_file 50);
    (output_path "100hz_pure_tone.wav", pure_tone_file 100);
    (output_path "200hz_pure_tone.wav", pure_tone_file 200);
    (output_path "440hz_pure_tone.wav", pure_tone_file 440);
    (output_path "1000hz_pure_tone.wav", pure_tone_file 1000);
    (output_path "5000hz_pure_tone.wav", pure_tone_file 5000) ]%R.

(** What [main] prints once the output directory is there, when it runs
    to its end. *)
Definition run_log : list string :=
  [ "Generating test audio files...";
    "Sample rate: " ++ SAMPLE_RATE_str ++ " Hz";
    "Duration: " ++ DURATION_str ++ " seconds";
    "Output directory: " ++ OUTPUT_DIR ++ nl;
    "1. Generating pure sine waves..." ]
  ++ map generated_line (map snd test_frequencies)
  ++ [ nl ++ "2. Generating low-pass filtered noise..." ]
  ++ map generated_line (map snd cutoff_frequencies)
  ++ [ nl ++ "3. Generating multi-tone signals..." ]
  ++ map generated_line (map snd multi_tones)
  ++ [ nl ++ "4. Generating frequency sweeps..." ]
  ++ map generated_line (map snd sweeps)
  ++ [ nl ++ "5. Generating silence (baseline)...";
       generated_line "silence.wav";
       nl ++ "6. Generating very low frequency signals..." ]
  ++ map generated_line (map snd low_freqs)
  ++ [ nl ++ "âœ… All test files generated in '" ++ OUTPUT_DIR
          ++ "' directory!";
       nl ++ "Expected FFT results:";
       "  - Pure tones: Should show peak at corresponding frequency bin";
       "  - Low-pass noise: Should show energy only below cutoff frequency";
       "  - Multi-tone: Should show peaks at all component frequencies";
       "  - Sweeps: Should show energy across the swept frequency range";
       "  - Silence: Should show minimal/no energy across all frequencies" ].

(** What [ensure_output_dir] prints: one line when it creates the
    directory, nothing when the path exists. *)
Definition created_log (f : filesystem) : list string :=
  if Os.path_exists OUTPUT_DIR f then []
  else ["Created directory: " ++ OUTPUT_DIR].

(** The running invariant of the driver with the console: as [progress],
    and [out] is what has been printed since [w0]. *)
Definition progress_out (files : list (string * list Z)) (g : Rng)
    (out : list string) (w0 w : World) : Prop :=
  progress files g w0 w /\ stdout w = (stdout w0 ++ out)%list.

(** Between [w0] and [w] only the console has changed: [out] was
    printed. *)
Definition printed (out : list string) (w0 w : World) : Prop :=
  fs w = fs w0 /\ rng w = rng w0 /\ generated w = generated w0
  /\ stdout w = (stdout w0 ++ out)%list.

End MoreVocabulary.

(** A backend on which every filter design fails. *)
Definition failing_backend : NumericBackend :=
  {| Rng := unit;
     astype_float32 := fun x => x;
     random_normal := fun _ _ size g => (Py.zeros size, g);
     butter := fun _ _ => Raise ValueError;
     filtfilt := fun _ _ x => Ok x |}.

Definition failing_world : World (L := failing_backend) :=
  @Build_World failing_backend
    {| nodes := []; read_only := false |} [] tt 0.

(** The output directory is there, but the file system refuses writes. *)
Definition locked_world : World (L := exact_backend) :=
  @Build_World exact_backend
    {| nodes := [(OUTPUT_DIR, Dir)]; read_only := true |} [] tt 0.

(* ================================================================== *)
(** * Properties *)

Lemma Ok_inj (A : Type) (a b : A) : Ok a = Ok b -> a = b.
Proof. intros E. now injection E. Qed.

(** ** Truncation and 16-bit narrowing *)

Section IntFacts.

Local Open Scope R_scope.

Lemma floor_bounds (x : R) :
  IZR (Py.floor x) <= x < IZR (Py.floor x) + 1.
Proof.
  unfold Py.floor. rewrite minus_IZR.
  destruct (archimed x) as [Hgt Hle]. lra.
Qed.

Lemma floor_unique (x : R) (k : Z) :
  IZR k <= x < IZR k + 1 -> Py.floor x = k.
Proof.
  intros [Hlo Hhi]. unfold Py.floor.
  assert (E : (k + 1)%Z = up x).
  { apply up_tech; [exact Hlo | rewrite plus_IZR; exact Hhi]. }
  lia.
Qed.

Lemma floor_IZR (z : Z) : Py.floor (IZR z) = z.
Proof. apply floor_unique. lra. Qed.

Lemma int_nonneg (x : R) : 0 <= x -> Py.int x = Py.floor x.
Proof.
  intros Hx. unfold Py.int. destruct (Rle_dec 0 x); [reflexivity | lra].
Qed.

Lemma int_neg (x : R) : x < 0 -> Py.int x = (- Py.floor (- x))%Z.
Proof.
  intros Hx. unfold Py.int. destruct (Rle_dec 0 x); [lra | reflexivity].
Qed.

Lemma int_IZR (z : Z) : Py.int (IZR z) = z.
Proof.
  destruct (Rle_dec 0 (IZR z)) as [Hz | Hz].
  - rewrite int_nonneg by exact Hz. apply floor_IZR.
  - rewrite int_neg by lra. rewrite <- opp_IZR, floor_IZR. lia.
Qed.

(** Truncation never moves away from zero and stays within one unit. *)
Lemma int_bounds_nonneg (x : R) :
  0 <= x -> IZR (Py.int x) <= x < IZR (Py.int x) + 1.
Proof.
  intros Hx. rewrite int_nonneg by exact Hx. apply floor_bounds.
Qed.

Lemma int_bounds_neg (x : R) :
  x < 0 -> IZR (Py.int x) - 1 < x <= IZR (Py.int x).
Proof.
  intros Hx. rewrite int_neg by exact Hx. rewrite opp_IZR.
  pose proof (floor_bounds (- x)). lra.
Qed.

Lemma int_unique_nonneg (x : R) (k : Z) :
  0 <= x -> IZR k <= x < IZR k + 1 -> Py.int x = k.
Proof.
  intros Hx Hk. rewrite int_nonneg by exact Hx. now apply floor_unique.
Qed.

Lemma int_sign_nonneg (x : R) : 0 <= x -> (0 <= Py.int x)%Z.
Proof.
  intros Hx. pose proof (int_bounds_nonneg Hx) as [_ Hhi].
  apply Z.lt_succ_r. apply lt_IZR. rewrite succ_IZR. lra.
Qed.

Lemma int_within (x : R) (m : Z) :
  - IZR m <= x <= IZR m -> (- m <= Py.int x <= m)%Z.
Proof.
  intros [Hlo Hhi].
  destruct (Rle_dec 0 x) as [Hx | Hx].
  - pose proof (int_bounds_nonneg Hx) as [Hl Hu].
    pose proof (int_sign_nonneg Hx).
    split; [| apply le_IZR; lra].
    assert (0 <= m)%Z by (apply le_IZR; lra). lia.
  - assert (Hn : x < 0) by lra.
    pose proof (int_bounds_neg Hn) as [Hl Hu].
    split.
    + apply le_IZR. rewrite opp_IZR. lra.
    + assert (Py.int x <= 0)%Z.
      { apply Z.lt_succ_r. apply lt_IZR. rewrite succ_IZR. lra. }
      assert (0 <= m)%Z by (apply le_IZR; lra). lia.
Qed.

Lemma wrap16_range (z : Z) : (-32768 <= Py.wrap16 z <= 32767)%Z.
Proof.
  unfold Py.wrap16.
  pose proof (Z.mod_pos_bound (z + 32768) 65536 ltac:(lia)). lia.
Qed.

Lemma wrap16_small (z : Z) :
  (-32768 <= z <= 32767)%Z -> Py.wrap16 z = z.
Proof.
  intros Hz. unfold Py.wrap16. rewrite Z.mod_small by lia. lia.
Qed.


End IntFacts.

Section QuantizeFacts.

Local Open Scope R_scope.





Lemma quantize_range (x : R) : (-32768 <= quantize x <= 32767)%Z.
Proof. apply wrap16_range. Qed.

Lemma quantize_in_range (x : R) :
  Rabs x <= 1 -> quantize x = Py.int (x * 32767).
Proof.
  intros Hx. unfold quantize, Py.astype_int16.
  apply wrap16_small.
  assert (Hb : - IZR 32767 <= x * 32767 <= IZR 32767).
  { unfold Rabs in Hx. destruct (Rcase_abs x); lra. }
  pose proof (int_within _ Hb). lia.
Qed.

End QuantizeFacts.



(** ** The time grid and the pure tone *)

Section GridFacts.

Context {L : NumericBackend}.
Local Open Scope R_scope.

Lemma linspace_ok (start stop : R) (num : Z) :
  (0 <= num)%Z ->
  Py.linspace start stop num =
  Ok (map (fun i => INR i * ((stop - start) / IZR num) + start)
          (seq 0 (Z.to_nat num))).
Proof.
  intros Hn. unfold Py.linspace.
  destruct (Z.ltb_spec num 0); [lia | reflexivity].
Qed.

Lemma linspace_negative (start stop : R) (num : Z) :
  (num < 0)%Z -> Py.linspace start stop num = Raise ValueError.
Proof.
  intros Hn. unfold Py.linspace.
  destruct (Z.ltb_spec num 0); [reflexivity | lia].
Qed.

Lemma linspace_length (start stop : R) (num : Z) (t : list R) :
  Py.linspace start stop num = Ok t -> length t = Z.to_nat num.
Proof.
  unfold Py.linspace. destruct (num <? 0)%Z; [discriminate |].
  intros E. injection E as <-. now rewrite length_map, length_seq.
Qed.




Lemma generate_sine_wave_ok (f r d a : R) :
  (0 <= Py.int (r * d))%Z ->
  generate_sine_wave f r d a =
  Ok (map astype_float32
        (map (fun ti => a * sin (2 * PI * f * ti))
           (map (fun i => INR i * ((d - 0) / IZR (Py.int (r * d))) + 0)
              (seq 0 (Z.to_nat (Py.int (r * d))))))).
Proof.
  intros Hn. unfold generate_sine_wave. now rewrite linspace_ok.
Qed.

End GridFacts.




(** ** The frequency sweep *)

Section SweepFacts.

Context {L : NumericBackend}.
Local Open Scope R_scope.

Lemma generate_sweep_ok (s e r d a : R) :
  (0 <= Py.int (r * d))%Z ->
  generate_sweep s e r d a =
  Ok (map astype_float32
        (map (fun p => a * sin p)
           (map (sweep_phase s e d)
              (map (fun i => INR i * ((d - 0) / IZR (Py.int (r * d))) + 0)
                 (seq 0 (Z.to_nat (Py.int (r * d)))))))).
Proof.
  intros Hn. unfold generate_sweep. now rewrite linspace_ok.
Qed.



End SweepFacts.



(** ** The multi-tone mixture *)

Section MultiToneFacts.

Context {L : NumericBackend}.
Local Open Scope R_scope.

Lemma add_map (A : Type) (g h : A -> R) (t : list A) :
  Py.add (map g t) (map h t) = map (fun x => g x + h x) t.
Proof.
  induction t as [| x t IH]; simpl; [reflexivity | now rewrite IH].
Qed.

Lemma zeros_like_map (t : list R) :
  Py.zeros_like t = map (fun _ => 0) t.
Proof.
  unfold Py.zeros_like. induction t as [| x t IH]; simpl;
    [reflexivity | now rewrite IH].
Qed.

(** The vectorised accumulation of the loop, read point by point. *)
Lemma fold_add_tone (pairs : list (R * R)) (t : list R) (g : R -> R) :
  fold_left (add_tone t) pairs (map g t)
  = map (fun ti =>
           fold_left (fun acc fa => acc + snd fa * sin (2 * PI * fst fa * ti))
                     pairs (g ti)) t.
Proof.
  revert g. induction pairs as [| [fr am] pairs IH]; intros g.
  - reflexivity.
  - change (fold_left (add_tone t) ((fr, am) :: pairs) (map g t))
      with (fold_left (add_tone t) pairs (add_tone t (map g t) (fr, am))).
    replace (add_tone t (map g t) (fr, am))
      with (map (fun ti => g ti + am * sin (2 * PI * fr * ti)) t)
      by (unfold add_tone; now rewrite add_map).
    rewrite (IH (fun ti => g ti + am * sin (2 * PI * fr * ti))).
    reflexivity.
Qed.

Lemma tone_sum_pointwise (freqs amps t : list R) :
  tone_sum freqs amps t = map (tone_series (combine freqs amps)) t.
Proof.
  unfold tone_sum. rewrite zeros_like_map. apply fold_add_tone.
Qed.



Lemma max_abs_nonempty (wave : list R) :
  wave <> [] -> exists peak, Py.max (Py.abs wave) = Ok peak.
Proof.
  destruct wave as [| x rest]; [congruence |]. intros _.
  eexists. reflexivity.
Qed.

Lemma generate_multi_tone_unfold (freqs amps : list R) (r d : R) :
  generate_multi_tone freqs amps r d =
  rbind (Py.linspace 0 d (Py.int (r * d))) (fun t =>
  let wave := map (tone_series (combine freqs amps)) t in
  rbind (Py.max (Py.abs wave)) (fun max_val =>
  Ok (map astype_float32
        (if Rgt_dec max_val 1
         then map (fun x => x / max_val * (9 / 10)) wave
         else wave)))).
Proof.
  unfold generate_multi_tone.
  destruct (Py.linspace 0 d (Py.int (r * d))) as [t |]; [| reflexivity].
  simpl. now rewrite tone_sum_pointwise.
Qed.




End MultiToneFacts.


Section FourSampleTone.

Local Open Scope R_scope.




End FourSampleTone.

(** A 1 Hz tone of amplitude 1, four samples: 0, 1, 0, -1. *)
Example sine_four_samples :
  generate_sine_wave (L := exact_backend) 1 4 1 1 = Ok [0; 1; 0; -1]%R.
Proof.
  rewrite generate_sine_wave_ok
    by (replace (4 * 1)%R with (IZR 4) by lra; rewrite int_IZR; lia).
  replace (4 * 1)%R with (IZR 4) by lra. rewrite int_IZR.
  change (Z.to_nat 4) with 4%nat.
  cbn [seq map INR astype_float32 exact_backend]. f_equal.
  replace (2 * PI * 1 * (0 * ((1 - 0) / 4) + 0))%R with 0%R by lra.
  replace (2 * PI * 1 * (1 * ((1 - 0) / 4) + 0))%R with (PI / 2)%R by lra.
  replace (2 * PI * 1 * ((1 + 1) * ((1 - 0) / 4) + 0))%R with PI by lra.
  replace (2 * PI * 1 * ((1 + 1 + 1) * ((1 - 0) / 4) + 0))%R
    with (3 * (PI / 2))%R by lra.
  rewrite sin_0, sin_PI2, sin_PI, sin_3PI2.
  repeat (apply (f_equal2 (@cons R)); [lra |]). reflexivity.
Qed.





(** ** The WAV container *)

Section WavFacts.

Local Open Scope Z_scope.

Lemma decode_le16 (v : Z) :
  0 <= v < 65536 -> Wav.decode_le (Wav.le16 v) = v.
Proof.
  intros Hv. unfold Wav.decode_le, Wav.le16. cbn [fold_right].
  rewrite (Z.mod_small (v / 256) 256).
  - pose proof (Z.div_mod v 256 ltac:(lia)). lia.
  - split; [apply Z.div_pos; lia | apply Z.div_lt_upper_bound; lia].
Qed.

Lemma decode_le32 (v : Z) :
  0 <= v < 4294967296 -> Wav.decode_le (Wav.le32 v) = v.
Proof.
  intros Hv. unfold Wav.decode_le, Wav.le32. cbn [fold_right].
  replace (v / 65536) with (v / 256 / 256)
    by (rewrite Z.div_div by lia; reflexivity).
  replace (v / 16777216) with (v / 256 / 256 / 256)
    by (rewrite !Z.div_div by lia; reflexivity).
  rewrite (Z.mod_small (v / 256 / 256 / 256) 256).
  - pose proof (Z.div_mod v 256 ltac:(lia)).
    pose proof (Z.div_mod (v / 256) 256 ltac:(lia)).
    pose proof (Z.div_mod (v / 256 / 256) 256 ltac:(lia)).
    lia.
  - split.
    + repeat (apply Z.div_pos; [| lia]). lia.
    + repeat (apply Z.div_lt_upper_bound; [lia |]). lia.
Qed.

Lemma signed16_of_mod (s : Z) :
  -32768 <= s <= 32767 -> Wav.signed16 (s mod 65536) = s.
Proof.
  intros Hs. unfold Wav.signed16.
  destruct (Z.ltb_spec (s mod 65536) 32768) as [Hlt | Hge].
  - destruct (Z.lt_ge_cases s 0) as [Hneg | Hpos].
    + replace (s mod 65536) with (s + 65536) in Hlt
        by (apply Z.mod_unique with (-1); lia).
      lia.
    + apply Z.mod_small. lia.
  - destruct (Z.lt_ge_cases s 0) as [Hneg | Hpos].
    + replace (s mod 65536) with (s + 65536)
        by (apply Z.mod_unique with (-1); lia).
      lia.
    + rewrite Z.mod_small in Hge by lia. lia.
Qed.

Lemma frombytes_tobytes (data : list Z) :
  Forall (fun s => -32768 <= s <= 32767) data ->
  Wav.frombytes (Wav.tobytes data) = data.
Proof.
  induction 1 as [| s data Hs _ IH]; [reflexivity |].
  unfold Wav.tobytes. cbn [flat_map]. unfold Wav.le16 at 1.
  cbn [app Wav.frombytes].
  change (flat_map (fun s0 => Wav.le16 (s0 mod 65536)) data)
    with (Wav.tobytes data).
  rewrite IH. f_equal.
  pose proof (Z.mod_pos_bound s 65536 ltac:(lia)) as Hm.
  assert (E : (s mod 65536) mod 256 + 256 * ((s mod 65536 / 256) mod 256)
              = s mod 65536).
  { pose proof (decode_le16 Hm) as D.
    unfold Wav.decode_le, Wav.le16 in D. cbn [fold_right] in D. lia. }
  rewrite E. now apply signed16_of_mod.
Qed.

Lemma tobytes_length (data : list Z) :
  length (Wav.tobytes data) = (2 * length data)%nat.
Proof.
  unfold Wav.tobytes. induction data as [| s data IH]; [reflexivity |].
  cbn [flat_map]. rewrite length_app, IH. cbn [Wav.le16 length]. lia.
Qed.

(** The header the reader accepts, field by field. *)
Lemma read_canonical (size rate bps nbytes : Z) (payload : list Z) :
  Wav.read
    (Wav.RIFF ++ Wav.le32 size ++ Wav.WAVE ++ Wav.fmt_ ++ [16; 0; 0; 0]
     ++ ([1; 0] ++ [1; 0] ++ Wav.le32 rate ++ Wav.le32 bps
         ++ [2; 0] ++ [16; 0])
     ++ Wav.data_ ++ Wav.le32 nbytes ++ payload)
  = Some (Wav.decode_le (Wav.le32 rate),
          Wav.frombytes
            (firstn (Z.to_nat (Wav.decode_le (Wav.le32 nbytes))) payload)).
Proof. reflexivity. Qed.

Lemma pack_I_ok (v : Z) :
  0 <= v < 4294967296 -> Wav.pack_I v = Ok (Wav.le32 v).
Proof.
  intros Hv. unfold Wav.pack_I.
  destruct (Z.leb_spec 0 v); [| lia].
  destruct (Z.ltb_spec v 4294967296); [reflexivity | lia].
Qed.

Lemma encode_ok (rate : Z) (data : list Z) :
  0 <= rate < 2147483648 ->
  2 * Z.of_nat (length data) + 36 <= 4294967295 ->
  Wav.encode rate data =
  Ok (Wav.RIFF ++ Wav.le32 (36 + 2 * Z.of_nat (length data))
      ++ Wav.WAVE ++ Wav.fmt_ ++ [16; 0; 0; 0]
      ++ ([1; 0] ++ [1; 0] ++ Wav.le32 rate ++ Wav.le32 (rate * 2)
          ++ [2; 0] ++ [16; 0])
      ++ Wav.data_ ++ Wav.le32 (2 * Z.of_nat (length data))
      ++ Wav.tobytes data).
Proof.
  intros Hr Hn. unfold Wav.encode.
  change (Wav.pack_H 1) with (Ok [1; 0]).
  change (Wav.pack_H (1 * (2 * 8 / 8))) with (Ok [2; 0]).
  change (Wav.pack_H (2 * 8)) with (Ok [16; 0]).
  change (2 * 8 / 8) with 2.
  replace (rate * 2 * 1) with (rate * 2) by lia.
  rewrite (pack_I_ok (v := rate)) by lia.
  rewrite (pack_I_ok (v := rate * 2)) by lia.
  cbn [rbind].
  replace (length ([1; 0] ++ [1; 0] ++ Wav.le32 rate ++ Wav.le32 (rate * 2)
                   ++ [2; 0] ++ [16; 0])) with 16%nat by reflexivity.
  change (Wav.pack_I (Z.of_nat 16)) with (Ok [16; 0; 0; 0]).
  cbn [rbind].
  change (4 + 4 + 4 + 4 + 4 + Z.of_nat 16) with 36.
  destruct (Z.gtb_spec (36 - 4 - 4 + (4 + 4 + 2 * Z.of_nat (length data)))
              4294967295) as [Hbig | _]; [lia |].
  rewrite (pack_I_ok (v := 2 * Z.of_nat (length data))) by lia.
  cbn [rbind].
  replace (36 + 4 + 4 + 2 * Z.of_nat (length data) - 8)
    with (36 + 2 * Z.of_nat (length data)) by lia.
  rewrite (pack_I_ok (v := 36 + 2 * Z.of_nat (length data))) by lia.
  cbn [rbind]. reflexivity.
Qed.

(** The 48 bytes of a two-sample file at 44100 Hz. *)
Example encode_two_samples :
  Wav.encode 44100 [1; -2]
  = Ok [82; 73; 70; 70;  40; 0; 0; 0;  87; 65; 86; 69;
        102; 109; 116; 32;  16; 0; 0; 0;  1; 0;  1; 0;
        68; 172; 0; 0;  136; 88; 1; 0;  2; 0;  16; 0;
        100; 97; 116; 97;  4; 0; 0; 0;  1; 0;  254; 255].
Proof. reflexivity. Qed.

Example read_two_samples :
  Wav.read [82; 73; 70; 70;  40; 0; 0; 0;  87; 65; 86; 69;
            102; 109; 116; 32;  16; 0; 0; 0;  1; 0;  1; 0;
            68; 172; 0; 0;  136; 88; 1; 0;  2; 0;  16; 0;
            100; 97; 116; 97;  4; 0; 0; 0;  1; 0;  254; 255]
  = Some (44100, [1; -2]).
Proof. reflexivity. Qed.

(** Reading back what [encode] produced. *)
Lemma read_encode (rate : Z) (data bytes : list Z) :
  0 <= rate < 2147483648 ->
  2 * Z.of_nat (length data) + 36 <= 4294967295 ->
  Forall (fun s => -32768 <= s <= 32767) data ->
  Wav.encode rate data = Ok bytes ->
  Wav.read bytes = Some (rate, data).
Proof.
  intros Hr Hn Hdata E. rewrite encode_ok in E by assumption.
  apply Ok_inj in E. subst bytes.
  rewrite read_canonical.
  rewrite !decode_le32 by lia.
  replace (Z.to_nat (2 * Z.of_nat (length data)))
    with (length (Wav.tobytes data)) by (rewrite tobytes_length; lia).
  rewrite firstn_all. now rewrite frombytes_tobytes.
Qed.

End WavFacts.

(** ** Running monadic code *)

Section RunFacts.

Context {L : NumericBackend}.
Local Open Scope monad_scope.

Lemma bind_ok (A B : Type) (m : M A) (k : A -> M B) (w w1 : World) (a : A) :
  m w = (Ok a, w1) -> bind m k w = k a w1.
Proof. intros E. unfold bind. now rewrite E. Qed.

Lemma bind_raise (A B : Type) (m : M A) (k : A -> M B) (w w1 : World)
    (e : exn) :
  m w = (Raise e, w1) -> bind m k w = (Raise e, w1).
Proof. intros E. unfold bind. now rewrite E. Qed.

Lemma runs_bind (A B : Type) (m : M A) (k : A -> M B) (w : World)
    (Q : B -> World -> Prop) :
  runs m w (fun a w1 => runs (k a) w1 Q) -> runs (bind m k) w Q.
Proof.
  intros [a [w1 [E [b [w2 [E2 HQ]]]]]].
  exists b, w2. split; [| exact HQ].
  rewrite bind_ok with (a := a) (w1 := w1) by exact E. exact E2.
Qed.

Lemma runs_weaken (A : Type) (m : M A) (w : World)
    (P Q : A -> World -> Prop) :
  runs m w P -> (forall a w', P a w' -> Q a w') -> runs m w Q.
Proof.
  intros [a [w' [E HP]]] Himp. exists a, w'. split; [exact E | auto].
Qed.

Lemma runs_ret (A : Type) (a : A) (w : World) (Q : A -> World -> Prop) :
  Q a w -> runs (ret a) w Q.
Proof. intros HQ. exists a, w. split; [reflexivity | exact HQ]. Qed.

(** [print] leaves everything but the console untouched. *)
Lemma runs_print (line : string) (w : World) (Q : unit -> World -> Prop) :
  (forall w', fs w' = fs w -> rng w' = rng w ->
              generated w' = generated w -> Q tt w') ->
  runs (print line) w Q.
Proof.
  intros HQ. eexists tt, _. split; [reflexivity |].
  apply HQ; reflexivity.
Qed.

Lemma runs_tick (w : World) (Q : unit -> World -> Prop) :
  (forall w', fs w' = fs w -> rng w' = rng w ->
              generated w' = S (generated w) -> Q tt w') ->
  runs tick w Q.
Proof.
  intros HQ. eexists tt, _. split; [reflexivity |].
  apply HQ; reflexivity.
Qed.

Lemma runs_lift (A : Type) (r : result A) (a : A) (w : World)
    (Q : A -> World -> Prop) :
  r = Ok a -> Q a w -> runs (lift r) w Q.
Proof. intros -> HQ. exists a, w. split; [reflexivity | exact HQ]. Qed.

End RunFacts.

(** ** The file system under the catalog *)

Section FsFacts.

Local Open Scope string_scope.

Lemma lookup_app (p : string) (l1 l2 : list (string * node)) :
  Os.lookup p (l1 ++ l2)%list =
  match Os.lookup p l1 with
  | Some n => Some n
  | None => Os.lookup p l2
  end.
Proof.
  induction l1 as [| [q n] l1 IH]; [reflexivity |].
  simpl. destruct (String.eqb p q); [reflexivity | exact IH].
Qed.

Lemma lookup_In (p : string) (n : node) (l : list (string * node)) :
  NoDup (map fst l) -> In (p, n) l -> Os.lookup p l = Some n.
Proof.
  induction l as [| [q m] l IH]; intros Hnd Hin; [contradiction |].
  simpl in Hnd. inversion Hnd as [| ? ? Hq Hnd']; subst.
  simpl. destruct Hin as [E | Hin].
  - injection E as -> ->. now rewrite String.eqb_refl.
  - destruct (String.eqb_spec p q) as [-> | _].
    + exfalso. apply Hq. change q with (fst (q, n)). now apply in_map.
    + now apply IH.
Qed.

Lemma files_of_app (l1 l2 : list (string * node)) :
  files_of (l1 ++ l2)%list = (files_of l1 ++ files_of l2)%list.
Proof.
  induction l1 as [| [q [| c]] l1 IH]; simpl; [reflexivity | exact IH |].
  now rewrite IH.
Qed.

Lemma files_of_file_nodes (files : list (string * list Z)) :
  files_of (map file_node files) = map fst files.
Proof.
  induction files as [| [p c] files IH]; [reflexivity |].
  simpl. now rewrite IH.
Qed.

(** Every catalog name lands directly inside the output directory. *)
Lemma catalog_paths_inside :
  Forall (fun name =>
            Os.parent (output_path name) = OUTPUT_DIR
            /\ String.eqb OUTPUT_DIR (output_path name) = false)
         catalog_filenames.
Proof. repeat constructor. Qed.

Lemma catalog_filenames_NoDup : NoDup (map output_path catalog_filenames).
Proof.
  apply (NoDup_map_inv (fun p => p)). rewrite map_id.
  repeat (constructor;
          [ cbn [In map catalog_filenames];
            intros H; repeat (destruct H as [H | H]; [discriminate H |]);
            exact H |]).
  constructor.
Qed.

End FsFacts.

(** ** Writing one catalog file *)

Section SaveFacts.

Context {L : NumericBackend}.
Local Open Scope monad_scope.

Lemma catalog_name_inside (name : string) :
  In name catalog_filenames ->
  Os.parent (output_path name) = OUTPUT_DIR
  /\ String.eqb OUTPUT_DIR (output_path name) = false.
Proof.
  intros Hin. pose proof catalog_paths_inside as H.
  rewrite Forall_forall in H. now apply H.
Qed.

Lemma open_wb_ready (f : filesystem) (name : string) :
  ready f -> In name catalog_filenames ->
  Os.open_wb (output_path name) f = Ok tt.
Proof.
  intros [Hrw [Hdir Hfiles]] Hin.
  destruct (catalog_name_inside Hin) as [Hpar _].
  unfold Os.open_wb, Os.check_parent. rewrite Hpar.
  change (String.eqb OUTPUT_DIR EmptyString) with false.
  rewrite Hdir. cbn [rbind].
  rewrite Forall_forall in Hfiles. specialize (Hfiles name Hin).
  destruct (Os.lookup (output_path name) (nodes f)) as [[| c] |];
    [congruence | |]; now rewrite Hrw.
Qed.

Lemma ready_after_write (f : filesystem) (name : string) (bytes : list Z) :
  ready f -> In name catalog_filenames ->
  ready (Os.bind_node (output_path name) (File bytes) f).
Proof.
  intros [Hrw [Hdir Hfiles]] Hin.
  destruct (catalog_name_inside Hin) as [_ Hne].
  split; [exact Hrw |]. split.
  - cbn [Os.bind_node nodes Os.lookup]. now rewrite Hne.
  - rewrite Forall_forall in *. intros name' Hin'.
    cbn [Os.bind_node nodes Os.lookup].
    destruct (String.eqb (output_path name') (output_path name));
      [discriminate | now apply Hfiles].
Qed.

Lemma wav_image_encode (buf : list R) :
  fits buf ->
  Wav.encode SAMPLE_RATE (map quantize buf) = Ok (wav_image buf).
Proof.
  intros Hfit. unfold wav_image.
  rewrite encode_ok; [reflexivity | unfold SAMPLE_RATE; lia |].
  rewrite length_map. exact Hfit.
Qed.

Lemma save_wav_runs (name : string) (buf : list R) (w : World) :
  ready (fs w) -> In name catalog_filenames -> fits buf ->
  runs (save_wav name buf SAMPLE_RATE) w
    (fun _ w' =>
       fs w' = Os.bind_node (output_path name) (File (wav_image buf)) (fs w)
       /\ rng w' = rng w /\ generated w' = generated w).
Proof.
  intros Hready Hin Hfit. unfold save_wav. apply runs_bind.
  eexists tt, _. split.
  - unfold wavfile_write. fold (output_path name).
    rewrite (open_wb_ready Hready Hin).
    rewrite (wav_image_encode Hfit). reflexivity.
  - apply runs_print. intros w' Hfs Hrng Hgen.
    rewrite Hfs, Hrng, Hgen. repeat split.
Qed.

Lemma progress_same (files : list (string * list Z)) (g : Rng)
    (w0 w w' : World) :
  progress files g w0 w ->
  fs w' = fs w -> rng w' = rng w -> generated w' = generated w ->
  progress files g w0 w'.
Proof.
  intros [Hready [[Hn [Hr Hg]] Hrng]] Hfs Hrng' Hgen. unfold progress, wrote.
  rewrite Hfs, Hgen, Hrng'. auto.
Qed.

Lemma progress_snoc (files : list (string * list Z)) (g g' : Rng)
    (w0 w w' : World) (name : string) (bytes : list Z) :
  progress files g w0 w -> In name catalog_filenames ->
  fs w' = Os.bind_node (output_path name) (File bytes) (fs w) ->
  generated w' = S (generated w) ->
  rng w' = g' ->
  progress (files ++ [(output_path name, bytes)]) g' w0 w'.
Proof.
  intros [Hready [[Hn [Hr Hg]] _]] Hin Hfs Hgen Hrng. split; [| split].
  - rewrite Hfs. now apply ready_after_write.
  - unfold wrote. rewrite Hfs, Hgen.
    cbn [Os.bind_node nodes read_only].
    rewrite map_app, rev_app_distr, Hn, Hg, length_app.
    cbn [map rev app length file_node fst snd].
    repeat split; [exact Hr | lia].
  - exact Hrng.
Qed.

(** The noise generator only touches the random generator's state. *)
Lemma generate_lowpass_noise_draw (cutoff r d amp : R) (w : World) :
  generate_lowpass_noise cutoff r d amp w
  = (fst (noise_draw cutoff r d amp (rng w)),
     set_rng (snd (noise_draw cutoff r d amp (rng w))) w).
Proof.
  unfold generate_lowpass_noise, noise_draw, bind, np_random_normal, lift,
    ret.
  destruct (random_normal 0 amp (Py.int (r * d)) (rng w)) as [[noise | e] g];
    cbn [rbind fst snd]; [| reflexivity].
  destruct (butter 4 (cutoff / (r / 2))) as [[b a] | e];
    cbn [rbind]; [| reflexivity].
  destruct (filtfilt b a noise) as [y | e]; reflexivity.
Qed.

(** One iteration for a generator without side effects. *)
Lemma pure_entry_runs (r : result (list R)) (buf : list R) (name : string)
    (files : list (string * list Z)) (g : Rng) (w0 w : World) :
  r = Ok buf -> fits buf -> In name catalog_filenames ->
  progress files g w0 w ->
  runs (wave <- lift r ;; tick ;; save_wav name wave SAMPLE_RATE) w
    (fun _ w' =>
       progress (files ++ [(output_path name, wav_image (buffer_of r))])
                g w0 w').
Proof.
  intros Er Hfit Hin Hp. apply runs_bind.
  apply runs_lift with (a := buf); [exact Er |].
  apply runs_bind. apply runs_tick. intros w1 Hfs1 Hrng1 Hgen1.
  assert (Hready1 : ready (fs w1)) by (rewrite Hfs1; apply Hp).
  eapply runs_weaken;
    [apply save_wav_runs; [exact Hready1 | exact Hin | exact Hfit] |].
  intros _ w' [Hfs [Hrng Hgen]]. rewrite Er. cbn [buffer_of].
  apply progress_snoc with (g := g) (w := w); [exact Hp | exact Hin | | |].
  - now rewrite Hfs, Hfs1.
  - now rewrite Hgen, Hgen1.
  - rewrite Hrng, Hrng1. apply Hp.
Qed.

(** The same when the entry is followed by more statements. *)
Lemma pure_entry_then (B : Type) (r : result (list R)) (buf : list R)
    (name : string) (files : list (string * list Z)) (g : Rng)
    (w0 w : World) (rest : M B) (Q : B -> World -> Prop) :
  r = Ok buf -> fits buf -> In name catalog_filenames ->
  progress files g w0 w ->
  (forall w',
      progress (files ++ [(output_path name, wav_image (buffer_of r))])
               g w0 w' ->
      runs rest w' Q) ->
  runs (wave <- lift r ;; tick ;; save_wav name wave SAMPLE_RATE ;; rest)
       w Q.
Proof.
  intros Er Hfit Hin Hp Hrest. apply runs_bind.
  apply runs_lift with (a := buf); [exact Er |].
  apply runs_bind. apply runs_tick. intros w1 Hfs1 Hrng1 Hgen1.
  assert (Hready1 : ready (fs w1)) by (rewrite Hfs1; apply Hp).
  apply runs_bind.
  eapply runs_weaken;
    [apply save_wav_runs; [exact Hready1 | exact Hin | exact Hfit] |].
  cbv beta. intros _ w' [Hfs [Hrng Hgen]]. apply Hrest.
  rewrite Er. cbn [buffer_of].
  apply progress_snoc with (g := g) (w := w); [exact Hp | exact Hin | | |].
  - now rewrite Hfs, Hfs1.
  - now rewrite Hgen, Hgen1.
  - rewrite Hrng, Hrng1. apply Hp.
Qed.

(** One iteration for the noise generator. *)
Lemma noise_entry_runs (cutoff : R) (name : string)
    (files : list (string * list Z)) (g : Rng) (w0 w : World) :
  noise_available -> In cutoff (map fst cutoff_frequencies) ->
  In name catalog_filenames ->
  progress files g w0 w ->
  runs (noise <- generate_lowpass_noise cutoff (IZR SAMPLE_RATE) DURATION
                   (3 / 10) ;;
        tick ;; save_wav name noise SAMPLE_RATE) w
    (fun _ w' =>
       progress (files ++ [(output_path name, noise_file cutoff g)])
                (snd (catalog_noise cutoff g)) w0 w').
Proof.
  intros Hnoise Hc Hin Hp.
  assert (Hg : rng w = g) by apply Hp.
  destruct (Hnoise w cutoff Hc) as [buf [g1 [Erun Hfit]]].
  pose proof Erun as Edraw. rewrite generate_lowpass_noise_draw in Edraw.
  fold (catalog_noise cutoff (rng w)) in Edraw. rewrite Hg in Edraw.
  assert (Ebuf : fst (catalog_noise cutoff g) = Ok buf) by congruence.
  apply runs_bind. exists buf, (set_rng g1 w). split; [exact Erun |].
  apply runs_bind. apply runs_tick. intros w1 Hfs1 Hrng1 Hgen1.
  cbn [set_rng fs generated rng] in Hfs1, Hgen1, Hrng1.
  assert (Hready1 : ready (fs w1)) by (rewrite Hfs1; apply Hp).
  eapply runs_weaken;
    [apply save_wav_runs; [exact Hready1 | exact Hin | exact Hfit] |].
  intros _ w' [Hfs [Hrng Hgen]].
  unfold noise_file. rewrite Ebuf. cbn [buffer_of].
  apply progress_snoc with (g := g) (w := w); [exact Hp | exact Hin | | |].
  - now rewrite Hfs, Hfs1.
  - now rewrite Hgen, Hgen1.
  - rewrite Hrng, Hrng1.
    assert (E2 : set_rng g1 w = set_rng (snd (catalog_noise cutoff g)) w)
      by congruence.
    apply (f_equal rng) in E2. exact E2.
Qed.

End SaveFacts.

(** ** The catalog's generators succeed *)

Section CatalogFacts.

Context {L : NumericBackend}.
Local Open Scope R_scope.

Lemma catalog_sample_count :
  Py.int (IZR SAMPLE_RATE * DURATION) = 220500%Z.
Proof.
  unfold SAMPLE_RATE, DURATION.
  replace (44100 * 5) with (IZR 220500) by lra. apply int_IZR.
Qed.

Lemma fits_catalog_length (buf : list R) :
  length buf = Z.to_nat 220500 -> fits buf.
Proof. intros E. unfold fits. rewrite E, Z2Nat.id; lia. Qed.

Lemma sine_catalog (freq amp : R) :
  exists buf,
    generate_sine_wave freq (IZR SAMPLE_RATE) DURATION amp = Ok buf
    /\ fits buf.
Proof.
  eexists. split.
  - apply generate_sine_wave_ok. rewrite catalog_sample_count. lia.
  - apply fits_catalog_length.
    now rewrite !length_map, length_seq, catalog_sample_count.
Qed.

Lemma sweep_catalog (s e amp : R) :
  exists buf,
    generate_sweep s e (IZR SAMPLE_RATE) DURATION amp = Ok buf /\ fits buf.
Proof.
  eexists. split.
  - apply generate_sweep_ok. rewrite catalog_sample_count. lia.
  - apply fits_catalog_length.
    now rewrite !length_map, length_seq, catalog_sample_count.
Qed.

Lemma multi_tone_catalog (freqs amps : list R) :
  exists buf,
    generate_multi_tone freqs amps (IZR SAMPLE_RATE) DURATION = Ok buf
    /\ fits buf.
Proof.
  rewrite generate_multi_tone_unfold, catalog_sample_count.
  rewrite linspace_ok by lia. cbn [rbind].
  set (t := map _ (seq 0 (Z.to_nat 220500))).
  assert (Ht : length t = Z.to_nat 220500).
  { unfold t. now rewrite length_map, length_seq. }
  set (wave := map (tone_series (combine freqs amps)) t).
  assert (Hw : length wave = Z.to_nat 220500).
  { unfold wave. now rewrite length_map. }
  assert (Hne : wave <> []).
  { intros E. rewrite E in Hw. simpl in Hw. lia. }
  destruct (max_abs_nonempty Hne) as [peak Hpeak].
  rewrite Hpeak. cbn [rbind]. eexists. split; [reflexivity |].
  apply fits_catalog_length. rewrite length_map.
  destruct (Rgt_dec peak 1); [now rewrite length_map | exact Hw].
Qed.

Lemma silence_catalog :
  exists buf,
    Py.zeros (Py.int (IZR SAMPLE_RATE * DURATION)) = Ok buf /\ fits buf.
Proof.
  rewrite catalog_sample_count. eexists. split; [reflexivity |].
  apply fits_catalog_length. apply repeat_length.
Qed.

End CatalogFacts.

(** ** The output directory *)

Section DirFacts.

Context {L : NumericBackend}.

Lemma ensure_output_dir_present (w : World) (n : node) :
  Os.lookup OUTPUT_DIR (nodes (fs w)) = Some n ->
  ensure_output_dir w = (Ok tt, w).
Proof.
  intros E. unfold ensure_output_dir, bind, os_path_exists, Os.path_exists.
  now rewrite E.
Qed.

Lemma ensure_output_dir_runs (w : World) :
  startable (fs w) ->
  runs ensure_output_dir w
    (fun _ w' =>
       ready (fs w')
       /\ nodes (fs w') = prepared_nodes (fs w)
       /\ read_only (fs w') = read_only (fs w)
       /\ generated w' = generated w
       /\ rng w' = rng w).
Proof.
  intros [Hrw [[Habsent | Hdir] Hfiles]].
  - unfold ensure_output_dir. apply runs_bind.
    eexists _, w. split; [reflexivity |].
    unfold Os.path_exists, prepared_nodes, Os.path_exists.
    rewrite Habsent. cbn [negb]. apply runs_bind.
    eexists tt, _. split.
    + unfold os_makedirs, Os.makedirs, Os.check_parent, Os.path_exists.
      change (Os.parent OUTPUT_DIR) with EmptyString.
      cbn [String.eqb rbind]. rewrite Habsent, Hrw. reflexivity.
    + apply runs_print. intros w' Hfs Hrng Hgen. rewrite Hfs, Hgen, Hrng.
      cbn [set_fs fs generated rng Os.bind_node nodes read_only].
      split; [| repeat split].
      split; [exact Hrw |]. split.
      * cbn [Os.lookup Os.bind_node nodes]. now rewrite String.eqb_refl.
      * rewrite Forall_forall in *. intros name Hin.
        cbn [Os.lookup Os.bind_node nodes].
        destruct (catalog_name_inside Hin) as [_ Hne].
        rewrite String.eqb_sym, Hne. now apply Hfiles.
  - exists tt, w. split; [now apply ensure_output_dir_present with Dir |].
    unfold prepared_nodes, Os.path_exists. rewrite Hdir.
    repeat split; assumption.
Qed.

End DirFacts.

(** ** A complete run *)

Section MainFacts.

Context {L : NumericBackend}.
Local Open Scope string_scope.

Ltac name_in_catalog :=
  unfold catalog_filenames;
  repeat (first [left; reflexivity | right]).

Ltac cutoff_in_catalog :=
  unfold cutoff_frequencies; cbn [map fst In];
  repeat (first [left; reflexivity | right]).

Ltac after_print :=
  apply runs_bind; apply runs_print;
  let w' := fresh "w" in
  let Hfs := fresh "Hfs" in
  let Hr := fresh "Hr" in
  let Hg := fresh "Hg" in
  let Hp' := fresh "Hp" in
  intros w' Hfs Hr Hg;
  lazymatch goal with
  | Hold : progress _ _ _ _ |- _ =>
      pose proof (@progress_same _ _ _ _ _ w' Hold Hfs Hr Hg) as Hp';
      clear Hold Hfs Hr Hg
  end.

Ltac pure_entry Hgen :=
  apply runs_bind;
  let buf := fresh "buf" in
  let E := fresh "E" in
  let Hfit := fresh "Hfit" in
  let w' := fresh "w" in
  let Hp' := fresh "Hp" in
  destruct Hgen as [buf [E Hfit]];
  lazymatch goal with
  | Hold : progress _ _ _ _ |- _ =>
      eapply runs_weaken;
      [ eapply pure_entry_runs;
        [exact E | exact Hfit | name_in_catalog | exact Hold]
      | cbv beta; intros _ w' Hp'; clear Hold E Hfit buf ]
  end.

Ltac noise_entry Hnoise :=
  apply runs_bind;
  let w' := fresh "w" in
  let Hp' := fresh "Hp" in
  lazymatch goal with
  | Hold : progress _ _ _ _ |- _ =>
      eapply runs_weaken;
      [ eapply noise_entry_runs;
        [exact Hnoise | cutoff_in_catalog | name_in_catalog | exact Hold]
      | cbv beta; intros _ w' Hp'; clear Hold ]
  end.

(** The file system after a complete run, as a function of the file system
    and of the state of the random generator before it. *)
Lemma main_runs (w : World) :
  startable (fs w) -> noise_available ->
  runs main w
    (fun _ w' =>
       let '(n50, n100, n200, n500) := noise_files (rng w) in
       nodes (fs w')
       = (rev (map file_node (catalog_files n50 n100 n200 n500))
          ++ prepared_nodes (fs w))%list
       /\ read_only (fs w') = read_only (fs w)
       /\ generated w' = (generated w + 23)%nat).
Proof.
  intros Hstart Hnoise. unfold main.
  apply runs_bind.
  eapply runs_weaken; [apply ensure_output_dir_runs; exact Hstart |].
  intros _ w0 [Hready [Hnodes [Hro [Hgen Hrng]]]].
  assert (Hp : progress [] (rng w) w0 w0).
  { split; [exact Hready |]. split; [| exact Hrng].
    unfold wrote. cbn [map rev app length]. repeat split. lia. }
  clear Hready.
  do 5 after_print.
  apply runs_bind. unfold test_frequencies. cbn [for_each].
  pure_entry (sine_catalog 50 (1 / 2)).
  pure_entry (sine_catalog 100 (1 / 2)).
  pure_entry (sine_catalog 200 (1 / 2)).
  pure_entry (sine_catalog 440 (1 / 2)).
  pure_entry (sine_catalog 1000 (1 / 2)).
  pure_entry (sine_catalog 5000 (1 / 2)).
  apply runs_ret.
  after_print.
  apply runs_bind. unfold cutoff_frequencies. cbn [for_each].
  noise_entry Hnoise.
  noise_entry Hnoise.
  noise_entry Hnoise.
  noise_entry Hnoise.
  apply runs_ret.
  after_print.
  apply runs_bind. unfold multi_tones. cbn [for_each].
  pure_entry (multi_tone_catalog [100; 200; 300]%R
                [3 / 10; 2 / 10; 1 / 10]%R).
  pure_entry (multi_tone_catalog [50; 100; 500; 1000]%R
                [25 / 100; 25 / 100; 15 / 100; 1 / 10]%R).
  pure_entry (multi_tone_catalog [440; 880; 1320]%R
                [3 / 10; 2 / 10; 15 / 100]%R).
  apply runs_ret.
  after_print.
  apply runs_bind. unfold sweeps. cbn [for_each].
  pure_entry (sweep_catalog 20 200 (1 / 2)).
  pure_entry (sweep_catalog 100 5000 (1 / 2)).
  pure_entry (sweep_catalog 5000 20000 (1 / 2)).
  apply runs_ret.
  after_print.
  (* silence: this entry is straight-line code, not a loop body *)
  destruct silence_catalog as [silence [Esil Hfit]].
  lazymatch goal with
  | Hold : progress _ _ _ _ |- _ =>
      eapply pure_entry_then;
      [exact Esil | exact Hfit | name_in_catalog | exact Hold |];
      clear Hold Esil Hfit silence
  end.
  intros ws Hps.
  after_print.
  apply runs_bind. unfold low_freqs. cbn [for_each].
  pure_entry (sine_catalog 20 (1 / 2)).
  pure_entry (sine_catalog 30 (1 / 2)).
  pure_entry (sine_catalog 40 (1 / 2)).
  pure_entry (sine_catalog 60 (1 / 2)).
  pure_entry (sine_catalog 80 (1 / 2)).
  pure_entry (sine_catalog 90 (1 / 2)).
  apply runs_ret.
  do 6 after_print.
  apply runs_print. intros wf Hfsf _ Hgf.
  lazymatch goal with
  | Hfinal : progress _ _ _ _ |- _ =>
      destruct Hfinal as [_ [[Hn [Hr Hg]] _]]
  end.
  unfold noise_files.
  rewrite Hfsf, Hgf, Hn, Hr, Hg, Hnodes, Hro, Hgen.
  repeat split.
Qed.

End MainFacts.

(** ** Closed runs on the exact backend *)

Section ExactRuns.

Lemma zeros_ok (n : Z) :
  (0 <= n)%Z -> Py.zeros n = Ok (repeat 0%R (Z.to_nat n)).
Proof.
  intros Hn. unfold Py.zeros. destruct (Z.ltb_spec n 0); [lia | reflexivity].
Qed.

Lemma exact_noise_run (cutoff r d amp : R) (w : World (L := exact_backend)) :
  (0 <= Py.int (r * d))%Z ->
  generate_lowpass_noise cutoff r d amp w
  = (Ok (map (fun x => x) (repeat 0%R (Z.to_nat (Py.int (r * d))))),
     @set_rng exact_backend tt w).
Proof.
  intros Hn.
  unfold generate_lowpass_noise, bind, np_random_normal, lift, ret.
  cbn [random_normal butter filtfilt astype_float32 exact_backend].
  rewrite (zeros_ok Hn). destruct (rng w). reflexivity.
Qed.

Lemma exact_noise_available : noise_available (L := exact_backend).
Proof.
  intros w cutoff _. eexists _, (tt : @Rng exact_backend). split.
  - apply exact_noise_run. rewrite catalog_sample_count. lia.
  - apply fits_catalog_length.
    now rewrite length_map, repeat_length, catalog_sample_count.
Qed.

Lemma empty_world_startable : startable (fs empty_world).
Proof.
  split; [reflexivity |]. split; [left; reflexivity |].
  apply Forall_forall. intros name _. discriminate.
Qed.

Lemma prepared_world_ready : ready (fs prepared_world).
Proof.
  split; [reflexivity |]. split; [reflexivity |].
  apply Forall_forall. intros name Hin.
  cbn [prepared_world fs nodes Os.lookup].
  destruct (catalog_name_inside Hin) as [_ Hne].
  rewrite String.eqb_sym, Hne. discriminate.
Qed.

End ExactRuns.

Section FilesFacts.

Lemma files_of_rev (l : list (string * node)) :
  files_of (rev l) = rev (files_of l).
Proof.
  induction l as [| [p [| c]] l IH]; [reflexivity | |].
  - cbn [rev files_of]. rewrite files_of_app, IH. cbn [files_of].
    now rewrite app_nil_r.
  - cbn [rev files_of]. rewrite files_of_app, IH. reflexivity.
Qed.

Lemma catalog_files_paths (n50 n100 n200 n500 : list Z)
    {L : NumericBackend} :
  map fst (catalog_files n50 n100 n200 n500)
  = map output_path catalog_filenames.
Proof. reflexivity. Qed.

(** The catalog names, group by group, are the names in the driver's
    lists. *)
Lemma catalog_filenames_groups :
  catalog_filenames
  = (map snd test_frequencies ++ map snd cutoff_frequencies
     ++ map snd multi_tones ++ map snd sweeps ++ ["silence.wav"%string]
     ++ map snd low_freqs)%list.
Proof. reflexivity. Qed.

End FilesFacts.

(** C1 (amended). On a file system that lets the catalog be written, and
    with a noise generator that succeeds, [main] returns normally and
    creates exactly 23 files -- 6 pure tones, 4 low-pass noises, 3
    multi-tone mixtures, 3 sweeps, the silence and 6 more pure tones --
    each written once, in the order of the driver's lists; nothing else is
    added after the output directory has been prepared. *)
Theorem main_writes_catalog {L : NumericBackend} (w : World) :
  startable (fs w) -> noise_available ->
  exists w' files,
    main w = (Ok tt, w')
    /\ nodes (fs w') = rev (map file_node files) ++ prepared_nodes (fs w)
    /\ map fst files = map output_path catalog_filenames
    /\ catalog_filenames
       = map snd test_frequencies ++ map snd cutoff_frequencies
         ++ map snd multi_tones ++ map snd sweeps ++ ["silence.wav"%string]
         ++ map snd low_freqs
    /\ length files = 23%nat
    /\ NoDup (map fst files)
    /\ (length test_frequencies + length low_freqs = 12
        /\ length cutoff_frequencies = 4 /\ length multi_tones = 3
        /\ length sweeps = 3)%nat.
Proof.
  intros Hstart Hnoise.
  destruct (main_runs w Hstart Hnoise) as [[] [w' [Erun Hpost]]].
  destruct (noise_files (rng w)) as [[[n50 n100] n200] n500].
  destruct Hpost as [Hnodes _].
  exists w', (catalog_files n50 n100 n200 n500).
  split; [exact Erun |]. split; [exact Hnodes |].
  split; [apply catalog_files_paths |].
  split; [apply catalog_filenames_groups |].
  split; [reflexivity |].
  split; [| repeat split].
  rewrite catalog_files_paths. apply catalog_filenames_NoDup.
Qed.

Lemma main_writes_catalog_witness :
  exists w' files,
    main empty_world = (Ok tt, w')
    /\ nodes (fs w') = rev (map file_node files) ++ [(OUTPUT_DIR, Dir)]
    /\ length files = 23%nat.
Proof.
  destruct (main_writes_catalog empty_world empty_world_startable
              exact_noise_available)
    as [w' [files [Erun [Hnodes [_ [_ [Hlen _]]]]]]].
  exists w', files. split; [exact Erun |]. split; [exact Hnodes | exact Hlen].
Defined.

(** C1, as stated, fails: a run from an empty directory leaves 23 regular
    files, not 22. *)
Lemma main_writes_23_files :
  exists w',
    main empty_world = (Ok tt, w')
    /\ length (files_of (nodes (fs w'))) = 23%nat
    /\ length (files_of (nodes (fs w'))) <> 22%nat.
Proof.
  destruct (main_runs empty_world empty_world_startable exact_noise_available)
    as [[] [w' [Erun Hpost]]].
  destruct (noise_files (rng empty_world)) as [[[n50 n100] n200] n500].
  destruct Hpost as [Hnodes _].
  exists w'. split; [exact Erun |].
  assert (E : length (files_of (nodes (fs w'))) = 23%nat).
  { rewrite Hnodes, files_of_app, files_of_rev, files_of_file_nodes.
    rewrite length_app, length_rev, length_map. reflexivity. }
  rewrite E. split; [reflexivity | discriminate].
Qed.

(** ** Contents of the files of a complete run *)

Section ContentFacts.

Context {L : NumericBackend}.
Local Open Scope string_scope.

(** A file that is not a noise file has contents that do not depend on the
    noise. *)
Lemma deterministic_entry (name : string) :
  In name catalog_filenames -> ~ In name noise_filenames ->
  exists bytes,
    forall n50 n100 n200 n500,
      In (output_path name, bytes) (catalog_files n50 n100 n200 n500).
Proof.
  intros Hin Hnot. unfold catalog_filenames in Hin. cbn [In] in Hin.
  repeat (destruct Hin as [<- | Hin];
          [ first
              [ solve [ exfalso; apply Hnot; unfold noise_filenames;
                        repeat (first [left; reflexivity | right]) ]
              | solve [ eexists; intros n50 n100 n200 n500;
                        unfold catalog_files; cbn [In];
                        repeat (first [left; reflexivity | right]) ] ]
          |]).
  contradiction.
Qed.

Lemma lookup_written (files : list (string * list Z))
    (base : list (string * node)) (p : string) (bytes : list Z) :
  NoDup (map fst files) -> In (p, bytes) files ->
  Os.lookup p (rev (map file_node files) ++ base)%list = Some (File bytes).
Proof.
  intros Hnd Hin. rewrite lookup_app.
  rewrite (@lookup_In p (File bytes)); [reflexivity | |].
  - rewrite map_rev, map_map. cbn [file_node fst].
    apply NoDup_rev. exact Hnd.
  - apply -> in_rev. change (p, File bytes) with (file_node (p, bytes)).
    now apply in_map.
Qed.

Lemma main_file_contents (w : World) :
  startable (fs w) -> noise_available ->
  exists w',
    main w = (Ok tt, w')
    /\ forall name, In name catalog_filenames -> ~ In name noise_filenames ->
         forall bytes,
           (forall n50 n100 n200 n500,
               In (output_path name, bytes)
                  (catalog_files n50 n100 n200 n500)) ->
           Os.lookup (output_path name) (nodes (fs w')) = Some (File bytes).
Proof.
  intros Hstart Hnoise.
  destruct (main_runs w Hstart Hnoise) as [[] [w' [Erun Hpost]]].
  destruct (noise_files (rng w)) as [[[n50 n100] n200] n500].
  destruct Hpost as [Hnodes _].
  exists w'. split; [exact Erun |].
  intros name Hin Hnot bytes Hbytes. rewrite Hnodes.
  apply lookup_written; [| apply Hbytes].
  rewrite catalog_files_paths. apply catalog_filenames_NoDup.
Qed.

End ContentFacts.

(** C8. The pure tone, multi-tone and sweep generators and the silence
    buffer do not depend on the world they are called in, so two calls with
    the same parameters give the same buffer; and after any two complete
    runs -- whatever the states of the random generator, the consoles and
    the earlier contents of the file systems -- every output file other
    than the four low-pass noise files holds the same bytes in both. *)
Theorem deterministic_files_agree {L : NumericBackend} (w1 w2 : World) :
  (forall f r d a,
      fst (lift (generate_sine_wave f r d a) w1)
      = fst (lift (generate_sine_wave f r d a) w2))
  /\ (forall fs_ amps r d,
      fst (lift (generate_multi_tone fs_ amps r d) w1)
      = fst (lift (generate_multi_tone fs_ amps r d) w2))
  /\ (forall s e r d a,
      fst (lift (generate_sweep s e r d a) w1)
      = fst (lift (generate_sweep s e r d a) w2))
  /\ (forall n, fst (lift (Py.zeros n) w1) = fst (lift (Py.zeros n) w2))
  /\ (startable (fs w1) -> startable (fs w2) -> noise_available ->
      exists w1' w2',
        main w1 = (Ok tt, w1') /\ main w2 = (Ok tt, w2')
        /\ forall name,
             In name catalog_filenames -> ~ In name noise_filenames ->
             exists bytes,
               Os.lookup (output_path name) (nodes (fs w1'))
               = Some (File bytes)
               /\ Os.lookup (output_path name) (nodes (fs w2'))
                  = Some (File bytes)).
Proof.
  repeat (split; [reflexivity |]).
  intros H1 H2 Hnoise.
  destruct (main_file_contents w1 H1 Hnoise) as [w1' [E1 C1]].
  destruct (main_file_contents w2 H2 Hnoise) as [w2' [E2 C2]].
  exists w1', w2'. split; [exact E1 |]. split; [exact E2 |].
  intros name Hin Hnot.
  destruct (deterministic_entry Hin Hnot) as [bytes Hbytes].
  exists bytes. split; [now apply C1 | now apply C2].
Qed.

Lemma deterministic_files_agree_witness :
  exists w1' w2' bytes,
    main empty_world = (Ok tt, w1') /\ main prepared_world = (Ok tt, w2')
    /\ Os.lookup (output_path "silence.wav") (nodes (fs w1'))
       = Some (File bytes)
    /\ Os.lookup (output_path "silence.wav") (nodes (fs w2'))
       = Some (File bytes).
Proof.
  destruct (deterministic_files_agree empty_world prepared_world)
    as [_ [_ [_ [_ Hruns]]]].
  destruct Hruns as [w1' [w2' [E1 [E2 Hsame]]]].
  - exact empty_world_startable.
  - destruct prepared_world_ready as [Hrw [Hdir Hfiles]].
    split; [exact Hrw |]. split; [right; exact Hdir | exact Hfiles].
  - exact exact_noise_available.
  - destruct (Hsame "silence.wav"%string) as [bytes [L1 L2]].
    + unfold catalog_filenames. repeat (first [left; reflexivity | right]).
    + unfold noise_filenames. cbn [In].
      intros H. repeat (destruct H as [H | H]; [discriminate H |]). exact H.
    + exists w1', w2', bytes. repeat split; assumption.
Defined.

(** ** Failures of the output directory *)

Section FailureFacts.

Context {L : NumericBackend}.
Local Open Scope string_scope.

Lemma fails_bind_l (A B : Type) (m : M A) (k : A -> M B) (w : World)
    (e : exn) (Q : World -> Prop) :
  fails m w e Q -> fails (bind m k) w e Q.
Proof.
  intros [w' [E HQ]]. exists w'. split; [| exact HQ].
  now apply bind_raise.
Qed.

Lemma fails_bind_r (A B : Type) (m : M A) (k : A -> M B) (w : World)
    (e : exn) (Q : World -> Prop) :
  runs m w (fun a w1 => fails (k a) w1 e Q) -> fails (bind m k) w e Q.
Proof.
  intros [a [w1 [E [w2 [E2 HQ]]]]]. exists w2. split; [| exact HQ].
  rewrite bind_ok with (a := a) (w1 := w1) by exact E. exact E2.
Qed.

(** A failing [ensure_output_dir] has changed nothing. *)
Lemma ensure_output_dir_failure (w w1 : World) (e : exn) :
  ensure_output_dir w = (Raise e, w1) ->
  w1 = w /\ Os.lookup OUTPUT_DIR (nodes (fs w)) = None.
Proof.
  unfold ensure_output_dir, bind, os_path_exists, Os.path_exists.
  destruct (Os.lookup OUTPUT_DIR (nodes (fs w))) as [n |] eqn:Elook.
  - cbn [negb]. unfold ret. discriminate.
  - cbn [negb]. unfold os_makedirs.
    destruct (Os.makedirs OUTPUT_DIR (fs w)) as [f | e'].
    + unfold print. discriminate.
    + intros E. injection E as _ <-. split; reflexivity.
Qed.

Lemma ensure_output_dir_read_only (w : World) :
  Os.lookup OUTPUT_DIR (nodes (fs w)) = None -> read_only (fs w) = true ->
  ensure_output_dir w = (Raise PermissionError, w).
Proof.
  intros Habsent Hro.
  unfold ensure_output_dir, bind, os_path_exists, Os.path_exists.
  rewrite Habsent. cbn [negb].
  unfold os_makedirs, Os.makedirs, Os.check_parent, Os.path_exists.
  change (Os.parent OUTPUT_DIR) with EmptyString.
  cbn [String.eqb rbind]. now rewrite Habsent, Hro.
Qed.

(** With a regular file in the place of the output directory the first
    write fails, after the first buffer has been generated. *)
Lemma main_collision (w : World) (c : list Z) :
  Os.lookup OUTPUT_DIR (nodes (fs w)) = Some (File c) ->
  fails main w NotADirectoryError
    (fun w' => fs w' = fs w /\ generated w' = S (generated w)).
Proof.
  intros Hfile. unfold main.
  apply fails_bind_r. exists tt, w.
  split; [now apply ensure_output_dir_present with (File c) |].
  do 5 (apply fails_bind_r; apply runs_print;
        let w' := fresh "w" in
        let Hfs := fresh "Hfs" in
        let Hgen := fresh "Hgen" in
        intros w' Hfs _ Hgen; rewrite <- Hfs, <- Hgen;
        rewrite <- Hfs in Hfile; clear Hfs Hgen).
  apply fails_bind_l. unfold test_frequencies. cbn [for_each].
  apply fails_bind_l.
  destruct (sine_catalog 50 (1 / 2)) as [buf [E _]].
  apply fails_bind_r. apply runs_lift with (a := buf); [exact E |].
  apply fails_bind_r. apply runs_tick. intros wt Hfs _ Hgen.
  unfold save_wav. apply fails_bind_l.
  exists wt. split; [| split; assumption].
  assert (Hfile' : Os.lookup OUTPUT_DIR (nodes (fs wt)) = Some (File c)).
  { rewrite Hfs. exact Hfile. }
  unfold wavfile_write, Os.open_wb, Os.check_parent.
  change (Os.parent (Os.path_join OUTPUT_DIR "50hz_pure_tone.wav"))
    with OUTPUT_DIR.
  change (String.eqb OUTPUT_DIR EmptyString) with false.
  cbv iota. now rewrite Hfile'.
Qed.

End FailureFacts.

(** C9 (amended). A failure of the directory creation itself -- the only
    way [ensure_output_dir] can fail, as when the output directory is
    missing and the file system refuses to create it -- aborts [main] with
    that exception in an unchanged world: nothing has been printed,
    generated or written.  A regular file in the place of the output
    directory is not such a failure: the path exists, no creation is
    attempted and [ensure_output_dir] returns normally; the run then stops
    with NotADirectoryError at the first write, after the first buffer has
    been generated and with no file written. *)
Theorem directory_failure_aborts {L : NumericBackend} (w : World) :
  (forall e w1,
      ensure_output_dir w = (Raise e, w1) ->
      main w = (Raise e, w1) /\ w1 = w)
  /\ (Os.lookup OUTPUT_DIR (nodes (fs w)) = None ->
      read_only (fs w) = true ->
      ensure_output_dir w = (Raise PermissionError, w)
      /\ main w = (Raise PermissionError, w))
  /\ (forall c,
      Os.lookup OUTPUT_DIR (nodes (fs w)) = Some (File c) ->
      ensure_output_dir w = (Ok tt, w)
      /\ exists w',
           main w = (Raise NotADirectoryError, w')
           /\ fs w' = fs w
           /\ generated w' = S (generated w)).
Proof.
  split; [| split].
  - intros e w1 E. split.
    + unfold main. now apply bind_raise.
    + now destruct (ensure_output_dir_failure _ E).
  - intros Habsent Hro.
    pose proof (ensure_output_dir_read_only _ Habsent Hro) as E.
    split; [exact E |]. unfold main. now apply bind_raise.
  - intros c Hfile. split.
    + now apply ensure_output_dir_present with (File c).
    + destruct (main_collision _ Hfile) as [w' [E [Hfs Hgen]]].
      exists w'. auto.
Qed.

Lemma directory_failure_aborts_witness :
  main read_only_world = (Raise PermissionError, read_only_world)
  /\ exists w',
       main collision_world = (Raise NotADirectoryError, w')
       /\ generated w' = 1%nat.
Proof.
  split.
  - destruct (directory_failure_aborts read_only_world) as [Hany [Hperm _]].
    destruct Hperm as [Hdir _]; [reflexivity | reflexivity |].
    destruct (Hany _ _ Hdir) as [Hmain _]. exact Hmain.
  - destruct (directory_failure_aborts collision_world) as [_ [_ Hcoll]].
    destruct (Hcoll []) as [_ [w' [E [_ Hgen]]]]; [reflexivity |].
    exists w'. split; [exact E | exact Hgen].
Defined.

(** C9, as stated, fails for a path collision: with a regular file named
    like the output directory, [ensure_output_dir] succeeds and one signal
    has been generated by the time the run aborts. *)
Lemma collision_aborts_after_generation :
  ensure_output_dir collision_world = (Ok tt, collision_world)
  /\ exists w',
       main collision_world = (Raise NotADirectoryError, w')
       /\ generated collision_world = 0%nat
       /\ generated w' = 1%nat.
Proof.
  split.
  - now apply ensure_output_dir_present with (File []).
  - destruct (@main_collision exact_backend collision_world [] eq_refl)
      as [w' [E [_ Hgen]]].
    exists w'. split; [exact E |]. split; [reflexivity | exact Hgen].
Qed.

(** ** Writing a buffer and reading it back *)

Section RoundTripFacts.

Context {L : NumericBackend}.
Local Open Scope string_scope.

Lemma quantized_in_range (data : list R) :
  Forall (fun s => (-32768 <= s <= 32767)%Z) (map quantize data).
Proof.
  apply Forall_forall. intros s Hin. apply in_map_iff in Hin.
  destruct Hin as [x [<- _]]. apply quantize_range.
Qed.



End RoundTripFacts.




(** ** The low-pass noise *)

Section NoiseFacts.


End NoiseFacts.



(** ** The noise files do depend on the random generator *)

Section SeededRuns.

Local Open Scope R_scope.

Lemma seeded_catalog_noise (cutoff : R) (g : Z) :
  catalog_noise (L := seeded_backend) cutoff g
  = (Ok (map (fun x => x)
           (map (fun _ => 0 + 3 / 10 * IZR g)
              (repeat 0 (Z.to_nat 220500)))),
     (g + 1)%Z).
Proof.
  unfold catalog_noise, noise_draw.
  cbn [random_normal butter filtfilt astype_float32 seeded_backend].
  rewrite catalog_sample_count. rewrite zeros_ok by lia. reflexivity.
Qed.

Lemma seeded_noise_available : noise_available (L := seeded_backend).
Proof.
  intros w cutoff _. rewrite generate_lowpass_noise_draw.
  fold (catalog_noise cutoff (rng w)).
  rewrite seeded_catalog_noise. cbn [fst snd].
  eexists _, _. split; [reflexivity |].
  apply fits_catalog_length. now rewrite !length_map, repeat_length.
Qed.

Lemma seeded_world_startable (g : Z) : startable (fs (seeded_world g)).
Proof.
  split; [reflexivity |]. split; [left; reflexivity |].
  apply Forall_forall. intros name _. discriminate.
Qed.

Lemma seeded_noise_file_samples (cutoff : R) (g : Z) :
  Wav.read (noise_file (L := seeded_backend) cutoff g)
  = Some (SAMPLE_RATE,
          map quantize
            (map (fun x => x)
               (map (fun _ => 0 + 3 / 10 * IZR g)
                  (repeat 0 (Z.to_nat 220500))))).
Proof.
  unfold noise_file. rewrite seeded_catalog_noise. cbn [fst buffer_of].
  set (buf := map (fun x => x) _).
  assert (Hfit : fits buf).
  { apply fits_catalog_length. unfold buf.
    now rewrite !length_map, repeat_length. }
  apply read_encode with (rate := SAMPLE_RATE).
  - unfold SAMPLE_RATE. lia.
  - rewrite length_map. exact Hfit.
  - apply quantized_in_range.
  - now apply wav_image_encode.
Qed.

Lemma seeded_noise_files_differ (cutoff : R) :
  @noise_file seeded_backend cutoff 0%Z
  <> @noise_file seeded_backend cutoff 1%Z.
Proof.
  intros E. apply (f_equal Wav.read) in E.
  rewrite !seeded_noise_file_samples in E.
  destruct (Z.to_nat 220500) as [| k] eqn:Ek; [lia |].
  cbn [repeat map] in E. injection E as E _.
  replace (0 + 3 / 10 * 0) with 0 in E by lra.
  replace (0 + 3 / 10 * 1) with (3 / 10) in E by lra.
  rewrite !quantize_in_range in E by (rewrite Rabs_pos_eq; lra).
  replace (0 * 32767) with (IZR 0) in E by lra. rewrite int_IZR in E.
  rewrite (@int_unique_nonneg (3 / 10 * 32767) 9830) in E by lra.
  discriminate.
Qed.

End SeededRuns.

(** Two runs that differ only in the state of the random generator can
    leave different noise files: what C8 allows for does happen. *)
Lemma noise_files_can_differ :
  exists w1' w2' b1 b2,
    main (seeded_world 0) = (Ok tt, w1')
    /\ main (seeded_world 1) = (Ok tt, w2')
    /\ Os.lookup (output_path "lowpass_50hz_noise.wav") (nodes (fs w1'))
       = Some (File b1)
    /\ Os.lookup (output_path "lowpass_50hz_noise.wav") (nodes (fs w2'))
       = Some (File b2)
    /\ b1 <> b2.
Proof.
  destruct (main_runs (seeded_world 0) (seeded_world_startable 0)
              seeded_noise_available) as [[] [w1' [E1 P1]]].
  destruct (main_runs (seeded_world 1) (seeded_world_startable 1)
              seeded_noise_available) as [[] [w2' [E2 P2]]].
  unfold noise_files in P1, P2. destruct P1 as [N1 _]. destruct P2 as [N2 _].
  exists w1', w2', (noise_file 50 (rng (seeded_world 0))),
    (noise_file 50 (rng (seeded_world 1))).
  split; [exact E1 |]. split; [exact E2 |].
  split; [| split].
  - rewrite N1. apply lookup_written.
    + rewrite catalog_files_paths. apply catalog_filenames_NoDup.
    + unfold catalog_files. cbn [In].
      repeat (first [left; reflexivity | right]).
  - rewrite N2. apply lookup_written.
    + rewrite catalog_files_paths. apply catalog_filenames_NoDup.
    + unfold catalog_files. cbn [In].
      repeat (first [left; reflexivity | right]).
  - apply seeded_noise_files_differ.
Qed.

(* ================================================================== *)
(** * Further properties of the code *)

(** ** The quantizer of [save_wav] *)

Section QuantizerFacts.

Local Open Scope R_scope.

Lemma int_opp (y : R) : Py.int (- y) = (- Py.int y)%Z.
Proof.
  destruct (Rlt_dec y 0) as [Hn | Hp].
  - rewrite (int_neg Hn). rewrite int_nonneg by lra. lia.
  - destruct (Req_dec y 0) as [-> | Hne].
    + rewrite Ropp_0. rewrite (int_IZR 0). reflexivity.
    + assert (Hy : - y < 0) by lra.
      rewrite (int_neg Hy). rewrite Ropp_involutive.
      rewrite int_nonneg by lra. reflexivity.
Qed.

Lemma int_mono (x y : R) : x <= y -> (Py.int x <= Py.int y)%Z.
Proof.
  intros Hxy.
  destruct (Rlt_dec x 0) as [Hx | Hx].
  - destruct (Rlt_dec y 0) as [Hy | Hy].
    + pose proof (int_bounds_neg Hx) as Bx.
      pose proof (int_bounds_neg Hy) as By.
      assert (H : IZR (Py.int x - 1) < IZR (Py.int y)).
      { rewrite minus_IZR. lra. }
      apply lt_IZR in H. lia.
    + assert (Hy' : 0 <= y) by lra.
      pose proof (int_sign_nonneg Hy').
      pose proof (int_bounds_neg Hx) as Bx.
      assert (H0 : IZR (Py.int x - 1) < IZR 0).
      { rewrite minus_IZR. lra. }
      apply lt_IZR in H0. lia.
  - assert (Hx' : 0 <= x) by lra. assert (Hy' : 0 <= y) by lra.
    pose proof (int_bounds_nonneg Hx') as Bx.
    pose proof (int_bounds_nonneg Hy') as By.
    assert (H : IZR (Py.int x) < IZR (Py.int y + 1)).
    { rewrite plus_IZR. lra. }
    apply lt_IZR in H. lia.
Qed.

Lemma Rabs_unit_scaled (x : R) :
  Rabs x <= 1 -> - IZR 32767 <= x * 32767 <= IZR 32767.
Proof.
  intros H. unfold Rabs in H. destruct (Rcase_abs x); lra.
Qed.

Lemma quantize_unit_bounds (x : R) :
  Rabs x <= 1 -> (-32767 <= quantize x <= 32767)%Z.
Proof.
  intros H. rewrite (quantize_in_range _ H).
  apply int_within with (m := 32767%Z). apply Rabs_unit_scaled, H.
Qed.

(** X1. For a sample of magnitude at most 1 the stored value lies between
    -32767 and 32767, so -32768 is never stored, and the quantizer is odd:
    negating the sample negates the stored value. *)
Theorem quantize_odd_and_bounded (x : R) :
  Rabs x <= 1 ->
  (-32767 <= quantize x <= 32767)%Z
  /\ quantize (- x) = (- quantize x)%Z.
Proof.
  intros H. split; [apply quantize_unit_bounds, H |].
  assert (H' : Rabs (- x) <= 1) by (rewrite Rabs_Ropp; exact H).
  rewrite (quantize_in_range _ H), (quantize_in_range _ H').
  replace (- x * 32767) with (- (x * 32767)) by ring.
  apply int_opp.
Qed.

Lemma quantize_odd_and_bounded_witness :
  Rabs (-1) <= 1
  /\ ((-32767 <= quantize (-1) <= 32767)%Z
      /\ quantize (- -1) = (- quantize (-1))%Z).
Proof.
  assert (H : Rabs (-1) <= 1) by (apply Rabs_le; lra).
  split; [exact H | exact (quantize_odd_and_bounded _ H)].
Defined.

(** X2. On [-1, 1] the quantizer is monotone: a larger sample is never
    stored as a smaller integer. *)
Theorem quantize_monotone (x y : R) :
  -1 <= x -> x <= y -> y <= 1 -> (quantize x <= quantize y)%Z.
Proof.
  intros Hx Hxy Hy.
  assert (Ax : Rabs x <= 1) by (apply Rabs_le; lra).
  assert (Ay : Rabs y <= 1) by (apply Rabs_le; lra).
  rewrite (quantize_in_range _ Ax), (quantize_in_range _ Ay).
  apply int_mono. lra.
Qed.

Lemma quantize_monotone_witness :
  (-1 <= - (1 / 2) /\ - (1 / 2) <= 1 / 4 /\ 1 / 4 <= 1)
  /\ (quantize (- (1 / 2)) <= quantize (1 / 4))%Z.
Proof.
  assert (H1 : -1 <= - (1 / 2)) by lra.
  assert (H2 : - (1 / 2) <= 1 / 4) by lra.
  assert (H3 : 1 / 4 <= 1) by lra.
  split; [repeat split; assumption | exact (quantize_monotone H1 H2 H3)].
Defined.



End QuantizerFacts.

(** ** The tone and sweep generators *)

Section ToneFacts.

Context {L : NumericBackend}.
Local Open Scope R_scope.





End ToneFacts.




(** ** Magnitudes of the generated buffers *)

Section MagnitudeFacts.

Context {L : NumericBackend}.
Local Open Scope R_scope.

Lemma scaled_sin_bounded (a p : R) : Rabs (a * sin p) <= Rabs a.
Proof.
  rewrite Rabs_mult. pose proof (SIN_bound p) as Hs.
  assert (H1 : Rabs (sin p) <= 1) by (apply Rabs_le; lra).
  pose proof (Rabs_pos a). pose proof (Rabs_pos (sin p)). nra.
Qed.








(** X9. When rate times duration truncates to a negative number, the
    sweep and the multi-tone generator raise ValueError as the pure tone
    does: no generator returns a buffer. *)
Theorem negative_grid_generators (f s e r d a : R) (freqs amps : list R) :
  (Py.int (r * d) < 0)%Z ->
  generate_sine_wave f r d a = Raise ValueError
  /\ generate_sweep s e r d a = Raise ValueError
  /\ generate_multi_tone freqs amps r d = Raise ValueError.
Proof.
  intros Hneg. unfold generate_sine_wave, generate_sweep.
  rewrite generate_multi_tone_unfold.
  rewrite linspace_negative by exact Hneg. repeat split.
Qed.

End MagnitudeFacts.




Lemma negative_grid_generators_witness :
  (Py.int (44100 * -1) < 0)%Z
  /\ generate_sine_wave (L := exact_backend) 440 44100 (-1) (1 / 2)
     = Raise ValueError
  /\ generate_sweep (L := exact_backend) 20 200 44100 (-1) (1 / 2)
     = Raise ValueError
  /\ generate_multi_tone (L := exact_backend) [100; 200]%R
       [3 / 10; 2 / 10]%R 44100 (-1) = Raise ValueError.
Proof.
  assert (Hneg : (Py.int (44100 * -1) < 0)%Z).
  { replace (44100 * -1)%R with (IZR (-44100)) by lra.
    rewrite int_IZR. lia. }
  split; [exact Hneg |].
  exact (@negative_grid_generators exact_backend 440 20 200 44100 (-1)
           (1 / 2) [100; 200]%R [3 / 10; 2 / 10]%R Hneg).
Defined.

(** ** The peak and the scaling of the multi-tone generator *)

Section PeakFacts.

Context {L : NumericBackend}.
Local Open Scope R_scope.

Lemma fold_Rmax_ge_init (l : list R) (x : R) : x <= fold_left Rmax l x.
Proof.
  revert x. induction l as [| a l IH]; intros x; cbn [fold_left].
  - lra.
  - eapply Rle_trans; [apply (Rmax_l x a) | apply IH].
Qed.

Lemma fold_Rmax_ge_In (l : list R) (x y : R) :
  In y l -> y <= fold_left Rmax l x.
Proof.
  revert x. induction l as [| a l IH]; intros x Hy; cbn [fold_left].
  - destruct Hy.
  - destruct Hy as [-> | Hy].
    + eapply Rle_trans; [apply (Rmax_r x y) | apply fold_Rmax_ge_init].
    + apply IH, Hy.
Qed.

Lemma fold_Rmax_In (l : list R) (x : R) : In (fold_left Rmax l x) (x :: l).
Proof.
  revert x. induction l as [| a l IH]; intros x; cbn [fold_left].
  - left. reflexivity.
  - destruct (IH (Rmax x a)) as [E | E].
    + rewrite <- E. destruct (Rle_dec x a) as [Hle | Hgt].
      * rewrite Rmax_right by exact Hle. right. left. reflexivity.
      * rewrite Rmax_left by lra. left. reflexivity.
    + right. right. exact E.
Qed.

(** The peak is an upper bound of the magnitudes, and it is attained. *)
Lemma max_abs_spec (wave : list R) (peak : R) :
  Py.max (Py.abs wave) = Ok peak ->
  Forall (fun y => Rabs y <= peak) wave
  /\ exists y, In y wave /\ peak = Rabs y.
Proof.
  destruct wave as [| x rest]; [discriminate |].
  unfold Py.max, Py.abs. cbn [map]. intros E. apply Ok_inj in E. subst peak.
  split.
  - apply Forall_forall. intros y [<- | Hy].
    + apply fold_Rmax_ge_init.
    + apply fold_Rmax_ge_In. apply in_map, Hy.
  - pose proof (fold_Rmax_In (map Rabs rest) (Rabs x)) as Hin.
    change (Rabs x :: map Rabs rest) with (map Rabs (x :: rest)) in Hin.
    apply in_map_iff in Hin. destruct Hin as [y [Hy Hiny]].
    exists y. split; [exact Hiny | now symmetry].
Qed.

(** The run of the generator on a grid of at least one point. *)
Lemma generate_multi_tone_peak (freqs amps : list R) (r d : R) :
  (0 < Py.int (r * d))%Z ->
  exists t peak,
    Py.linspace 0 d (Py.int (r * d)) = Ok t
    /\ length t = Z.to_nat (Py.int (r * d))
    /\ Py.max (Py.abs (map (tone_series (combine freqs amps)) t)) = Ok peak
    /\ generate_multi_tone freqs amps r d =
       Ok (map astype_float32
             (if Rgt_dec peak 1
              then map (fun x => x / peak * (9 / 10))
                     (map (tone_series (combine freqs amps)) t)
              else map (tone_series (combine freqs amps)) t)).
Proof.
  intros Hn. rewrite generate_multi_tone_unfold.
  destruct (Py.linspace 0 d (Py.int (r * d))) as [t | e] eqn:Et.
  2:{ rewrite linspace_ok in Et by lia. discriminate Et. }
  pose proof (linspace_length _ _ _ Et) as Hlen.
  destruct (@max_abs_nonempty (map (tone_series (combine freqs amps)) t))
    as [peak Hpeak].
  { intros Hnil. apply (f_equal (@length R)) in Hnil.
    rewrite length_map, Hlen in Hnil. cbn [length] in Hnil. lia. }
  exists t, peak. split; [reflexivity |]. split; [exact Hlen |].
  split; [exact Hpeak |].
  cbn [rbind]. rewrite Hpeak. reflexivity.
Qed.


Lemma single_tone_series (f a ti : R) :
  tone_series (combine [f] [a]) ti = a * sin (2 * PI * f * ti).
Proof.
  unfold tone_series. cbn [combine fold_left fst snd]. apply Rplus_0_l.
Qed.

(** X11. With one tone of amplitude at most 1 the multi-tone generator
    returns the buffer of the pure tone generator: the wave is not
    scaled. *)
Theorem single_tone_is_sine_wave (f a r d : R) :
  (0 < Py.int (r * d))%Z -> Rabs a <= 1 ->
  generate_multi_tone [f] [a] r d = generate_sine_wave f r d a.
Proof.
  intros Hn Ha.
  destruct (generate_multi_tone_peak [f] [a] r d Hn)
    as [t [peak [Ht [_ [Hpeak Hrun]]]]].
  destruct (max_abs_spec _ Hpeak) as [_ [y [Hy ->]]].
  apply in_map_iff in Hy. destruct Hy as [ti [<- _]].
  rewrite Hrun. unfold generate_sine_wave. rewrite Ht. cbn [rbind].
  destruct (Rgt_dec (Rabs (tone_series (combine [f] [a]) ti)) 1)
    as [Hgt | _].
  - rewrite single_tone_series in Hgt.
    pose proof (scaled_sin_bounded a (2 * PI * f * ti)). lra.
  - do 2 apply f_equal. apply map_ext. intros x.
    apply single_tone_series.
Qed.



End PeakFacts.


Lemma single_tone_is_sine_wave_witness :
  ((0 < Py.int (4 * 1))%Z /\ (Rabs (1 / 2) <= 1)%R)
  /\ generate_multi_tone (L := exact_backend) [1%R] [(1 / 2)%R] 4 1
     = generate_sine_wave (L := exact_backend) 1 4 1 (1 / 2).
Proof.
  assert (Hn : (0 < Py.int (4 * 1))%Z).
  { rewrite Rmult_1_r, int_IZR. lia. }
  assert (Ha : (Rabs (1 / 2) <= 1)%R) by (apply Rabs_le; lra).
  split; [split; assumption |].
  exact (@single_tone_is_sine_wave exact_backend 1 (1 / 2) 4 1 Hn Ha).
Defined.


(** ** What the effectful functions touch *)

Section EffectFacts.

Context {L : NumericBackend}.
Local Open Scope string_scope.

(** X13. The noise generator reads and advances the random generator and
    touches nothing else: the file system, the console and the count of
    buffers are as before, and both the outcome (buffer or exception) and
    the next state of the random generator are the same from any world
    whose random generator is in the same state. *)
Theorem lowpass_noise_touches_only_rng (cutoff r d amp : R)
    (w w' : World) (res : result (list R)) :
  generate_lowpass_noise cutoff r d amp w = (res, w') ->
  fs w' = fs w /\ stdout w' = stdout w /\ generated w' = generated w
  /\ forall v : World,
       rng v = rng w ->
       fst (generate_lowpass_noise cutoff r d amp v) = res
       /\ rng (snd (generate_lowpass_noise cutoff r d amp v)) = rng w'.
Proof.
  rewrite generate_lowpass_noise_draw. intros E.
  injection E as <- <-. cbn [set_rng fs stdout generated rng].
  split; [reflexivity |]. split; [reflexivity |]. split; [reflexivity |].
  intros v Hv. rewrite generate_lowpass_noise_draw, Hv.
  split; reflexivity.
Qed.

(** X14. [save_wav] prints its [Generated:] line exactly when the file was
    written, in which case the path holds the container of the quantized
    samples; when the write raises, nothing is printed.  Either way no
    other path is touched, and neither the random generator nor the count
    of buffers changes. *)
Theorem save_wav_effects (filename : string) (data : list R) (rate : Z)
    (w w' : World) (res : result unit) :
  save_wav filename data rate w = (res, w') ->
  rng w' = rng w /\ generated w' = generated w
  /\ read_only (fs w') = read_only (fs w)
  /\ (forall p, p <> output_path filename ->
        Os.lookup p (nodes (fs w')) = Os.lookup p (nodes (fs w)))
  /\ match res with
     | Ok _ =>
         stdout w' = (stdout w ++ [generated_line filename])%list
         /\ exists bytes,
             Wav.encode rate (map quantize data) = Ok bytes
             /\ Os.lookup (output_path filename) (nodes (fs w'))
                = Some (File bytes)
     | Raise _ => stdout w' = stdout w
     end.
Proof.
  unfold save_wav, bind, wavfile_write, print.
  fold (output_path filename).
  assert (Hother : forall (n : node) (p : string),
            p <> output_path filename ->
            Os.lookup p ((output_path filename, n) :: nodes (fs w))
            = Os.lookup p (nodes (fs w))).
  { intros n p Hp. cbn [Os.lookup].
    apply String.eqb_neq in Hp. now rewrite Hp. }
  destruct (Os.open_wb (output_path filename) (fs w)) as [[] | e].
  - destruct (Wav.encode rate (map quantize data)) as [bytes | e];
      intros E; injection E as <- <-;
      cbn [set_fs fs stdout rng generated Os.bind_node nodes read_only].
    + repeat split; [apply Hother |].
      exists bytes. split; [reflexivity |].
      cbn [Os.lookup]. now rewrite String.eqb_refl.
    + repeat split. apply Hother.
  - intros E. injection E as <- <-. repeat split.
Qed.

(** X15. [ensure_output_dir] is idempotent: after a call that returns, the
    output path exists and a second call returns at once, changing
    nothing.  The first call prints its [Created directory:] line exactly
    when the path was absent, and touches no other path. *)
Theorem ensure_output_dir_idempotent (w w' : World) :
  ensure_output_dir w = (Ok tt, w') ->
  ensure_output_dir w' = (Ok tt, w')
  /\ Os.path_exists OUTPUT_DIR (fs w') = true
  /\ stdout w' = (stdout w ++ created_log (fs w))%list
  /\ (forall p, p <> OUTPUT_DIR ->
        Os.lookup p (nodes (fs w')) = Os.lookup p (nodes (fs w)))
  /\ rng w' = rng w /\ generated w' = generated w.
Proof.
  unfold created_log.
  destruct (Os.lookup OUTPUT_DIR (nodes (fs w))) as [n |] eqn:Elook.
  - rewrite (ensure_output_dir_present w Elook). intros E.
    injection E as <-. unfold Os.path_exists. rewrite Elook.
    rewrite app_nil_r. repeat split.
    apply (ensure_output_dir_present w Elook).
  - intros E.
    unfold ensure_output_dir, bind, os_path_exists, os_makedirs,
      Os.makedirs, Os.check_parent, Os.path_exists, print in E.
    change (Os.parent OUTPUT_DIR) with EmptyString in E.
    cbn [String.eqb rbind negb] in E. rewrite Elook in E.
    cbn [negb] in E. rewrite ?Elook in E.
    destruct (read_only (fs w)); [discriminate E |].
    injection E as <-.
    cbn [set_fs fs stdout rng generated Os.bind_node nodes].
    assert (Hdir : Os.lookup OUTPUT_DIR ((OUTPUT_DIR, Dir) :: nodes (fs w))
                   = Some Dir).
    { cbn [Os.lookup]. now rewrite String.eqb_refl. }
    split; [eapply ensure_output_dir_present; exact Hdir |].
    unfold Os.path_exists. rewrite Elook.
    cbn [set_fs fs stdout rng generated Os.bind_node nodes].
    rewrite Hdir. repeat split.
    intros p Hp. cbn [Os.lookup].
    apply String.eqb_neq in Hp. now rewrite Hp.
Qed.

End EffectFacts.

Lemma lowpass_noise_touches_only_rng_witness :
  exists res w',
    generate_lowpass_noise (L := exact_backend) 50 44100 5 (3 / 10)
      empty_world = (res, w')
    /\ fs w' = fs empty_world
    /\ (rng prepared_world = rng empty_world ->
        fst (generate_lowpass_noise (L := exact_backend) 50 44100 5 (3 / 10)
               prepared_world) = res).
Proof.
  destruct (generate_lowpass_noise (L := exact_backend) 50 44100 5 (3 / 10)
              empty_world) as [res w'] eqn:E.
  exists res, w'. split; [reflexivity |].
  destruct (@lowpass_noise_touches_only_rng exact_backend 50 44100 5
              (3 / 10) empty_world w' res E) as [Hfs [_ [_ Hsame]]].
  split; [exact Hfs |].
  intros Hrng. apply (Hsame prepared_world Hrng).
Defined.

Lemma save_wav_effects_witness :
  exists res w',
    save_wav (L := exact_backend) "silence.wav" [0%R; (1 / 2)%R] 44100
      prepared_world = (res, w')
    /\ rng w' = rng prepared_world
    /\ match res with
       | Ok _ =>
           stdout w'
           = (stdout prepared_world ++ [generated_line "silence.wav"])%list
       | Raise _ => stdout w' = stdout prepared_world
       end.
Proof.
  destruct (save_wav (L := exact_backend) "silence.wav" [0%R; (1 / 2)%R]
              44100 prepared_world) as [res w'] eqn:E.
  exists res, w'. split; [reflexivity |].
  destruct (@save_wav_effects exact_backend "silence.wav"
              [0%R; (1 / 2)%R] 44100 prepared_world w' res E)
    as [Hrng [_ [_ [_ Hres]]]].
  split; [exact Hrng |].
  destruct res as [u | e]; [apply Hres | exact Hres].
Defined.

Lemma ensure_output_dir_idempotent_witness :
  exists w',
    ensure_output_dir (L := exact_backend) empty_world = (Ok tt, w')
    /\ ensure_output_dir w' = (Ok tt, w')
    /\ stdout w' = ["Created directory: test_audio"%string].
Proof.
  eexists. split; [reflexivity |].
  destruct (@ensure_output_dir_idempotent exact_backend empty_world _
              eq_refl) as [Hagain [_ [Hout _]]].
  split; [exact Hagain | exact Hout].
Defined.

(** ** A run of the driver, with its console *)

Section ConsoleFacts.

Context {L : NumericBackend}.
Local Open Scope string_scope.
Local Open Scope monad_scope.

Lemma runs_print_out (line : string) (w : World)
    (Q : unit -> World -> Prop) :
  (forall w', printed [line] w w' -> Q tt w') -> runs (print line) w Q.
Proof.
  intros HQ. eexists tt, _. split; [reflexivity |].
  apply HQ. repeat split.
Qed.

Lemma ensure_output_dir_console (w w' : World) :
  ensure_output_dir w = (Ok tt, w') ->
  stdout w' = (stdout w ++ created_log (fs w))%list.
Proof.
  unfold created_log, Os.path_exists.
  destruct (Os.lookup OUTPUT_DIR (nodes (fs w))) as [n |] eqn:Elook.
  - rewrite (ensure_output_dir_present w Elook). intros E.
    injection E as <-. now rewrite app_nil_r.
  - intros E.
    unfold ensure_output_dir, bind, os_path_exists, os_makedirs,
      Os.path_exists, print in E.
    rewrite Elook in E. cbn [negb] in E.
    destruct (Os.makedirs OUTPUT_DIR (fs w)) as [f | e];
      [| discriminate E].
    injection E as <-. reflexivity.
Qed.

Lemma save_wav_runs_out (name : string) (buf : list R) (w : World) :
  ready (fs w) -> In name catalog_filenames -> fits buf ->
  runs (save_wav name buf SAMPLE_RATE) w
    (fun _ w' =>
       fs w' = Os.bind_node (output_path name) (File (wav_image buf)) (fs w)
       /\ rng w' = rng w /\ generated w' = generated w
       /\ stdout w' = (stdout w ++ [generated_line name])%list).
Proof.
  intros Hready Hin Hfit. unfold save_wav. apply runs_bind.
  eexists tt, _. split.
  - unfold wavfile_write. fold (output_path name).
    rewrite (open_wb_ready Hready Hin).
    rewrite (wav_image_encode Hfit). reflexivity.
  - eexists tt, _. split; [reflexivity |].
    cbn [set_fs fs stdout rng generated]. repeat split.
Qed.

Lemma progress_out_print (files : list (string * list Z)) (g : Rng)
    (out : list string) (line : string) (w0 w w' : World) :
  progress_out files g out w0 w -> printed [line] w w' ->
  progress_out files g (out ++ [line]) w0 w'.
Proof.
  intros [Hp Hout] [Hfs [Hrng [Hgen Ho]]]. split.
  - now apply progress_same with (w := w).
  - now rewrite Ho, Hout, app_assoc.
Qed.

Lemma progress_out_snoc (files : list (string * list Z)) (g g' : Rng)
    (out : list string) (w0 w w' : World) (name : string)
    (bytes : list Z) :
  progress_out files g out w0 w -> In name catalog_filenames ->
  fs w' = Os.bind_node (output_path name) (File bytes) (fs w) ->
  generated w' = S (generated w) ->
  rng w' = g' ->
  stdout w' = (stdout w ++ [generated_line name])%list ->
  progress_out (files ++ [(output_path name, bytes)]) g'
    (out ++ [generated_line name]) w0 w'.
Proof.
  intros [Hp Hout] Hin Hfs Hgen Hrng Ho. split.
  - now apply progress_snoc with (g := g) (w := w).
  - now rewrite Ho, Hout, app_assoc.
Qed.

(** One iteration for a generator without side effects. *)
Lemma pure_entry_out (r : result (list R)) (buf : list R)
    (name : string) (files : list (string * list Z)) (g : Rng)
    (out : list string) (w0 w : World) :
  r = Ok buf -> fits buf -> In name catalog_filenames ->
  progress_out files g out w0 w ->
  runs (wave <- lift r ;; tick ;; save_wav name wave SAMPLE_RATE) w
    (fun _ w' =>
       progress_out
         (files ++ [(output_path name, wav_image (buffer_of r))]) g
         (out ++ [generated_line name]) w0 w').
Proof.
  intros Er Hfit Hin Hp. apply runs_bind.
  apply runs_lift with (a := buf); [exact Er |].
  apply runs_bind. eexists tt, _. split; [reflexivity |].
  eapply runs_weaken; [apply save_wav_runs_out; [| exact Hin | exact Hfit] |].
  - apply Hp.
  - cbv beta. intros _ w' [Hfs [Hrng [Hgen Ho]]].
    rewrite Er. cbn [buffer_of].
    apply progress_out_snoc with (g := g) (w := w);
      [exact Hp | exact Hin | exact Hfs | exact Hgen | | exact Ho].
    rewrite Hrng. apply Hp.
Qed.

(** One iteration for the noise generator. *)
Lemma noise_entry_out (cutoff : R) (name : string)
    (files : list (string * list Z)) (g : Rng) (out : list string)
    (w0 w : World) :
  noise_available -> In cutoff (map fst cutoff_frequencies) ->
  In name catalog_filenames ->
  progress_out files g out w0 w ->
  runs (noise <- generate_lowpass_noise cutoff (IZR SAMPLE_RATE) DURATION
                   (3 / 10) ;;
        tick ;; save_wav name noise SAMPLE_RATE) w
    (fun _ w' =>
       progress_out (files ++ [(output_path name, noise_file cutoff g)])
         (snd (catalog_noise cutoff g)) (out ++ [generated_line name])
         w0 w').
Proof.
  intros Hnoise Hc Hin Hp.
  assert (Hg : rng w = g) by apply Hp.
  destruct (Hnoise w cutoff Hc) as [buf [g1 [Erun Hfit]]].
  pose proof Erun as Edraw. rewrite generate_lowpass_noise_draw in Edraw.
  fold (catalog_noise cutoff (rng w)) in Edraw. rewrite Hg in Edraw.
  assert (Ebuf : fst (catalog_noise cutoff g) = Ok buf) by congruence.
  assert (Eg : g1 = snd (catalog_noise cutoff g)).
  { assert (E2 : set_rng g1 w = set_rng (snd (catalog_noise cutoff g)) w)
      by congruence.
    apply (f_equal rng) in E2. exact E2. }
  apply runs_bind. exists buf, (set_rng g1 w). split; [exact Erun |].
  apply runs_bind. eexists tt, _. split; [reflexivity |].
  eapply runs_weaken; [apply save_wav_runs_out; [| exact Hin | exact Hfit] |].
  - apply Hp.
  - cbv beta. intros _ w' [Hfs [Hrng [Hgen Ho]]].
    unfold noise_file. rewrite Ebuf. cbn [buffer_of].
    apply progress_out_snoc with (g := g) (w := w);
      [exact Hp | exact Hin | exact Hfs | exact Hgen | | exact Ho].
    rewrite Hrng, <- Eg. reflexivity.
Qed.

(** The same when the entry is followed by more statements. *)
Lemma pure_entry_then_out (B : Type) (r : result (list R)) (buf : list R)
    (name : string) (files : list (string * list Z)) (g : Rng)
    (out : list string) (w0 w : World) (rest : M B)
    (Q : B -> World -> Prop) :
  r = Ok buf -> fits buf -> In name catalog_filenames ->
  progress_out files g out w0 w ->
  (forall w',
      progress_out
        (files ++ [(output_path name, wav_image (buffer_of r))]) g
        (out ++ [generated_line name]) w0 w' ->
      runs rest w' Q) ->
  runs (wave <- lift r ;; tick ;; save_wav name wave SAMPLE_RATE ;; rest)
       w Q.
Proof.
  intros Er Hfit Hin Hp Hrest. apply runs_bind.
  apply runs_lift with (a := buf); [exact Er |].
  apply runs_bind. eexists tt, _. split; [reflexivity |].
  apply runs_bind.
  eapply runs_weaken; [apply save_wav_runs_out; [| exact Hin | exact Hfit] |].
  - apply Hp.
  - cbv beta. intros _ w' [Hfs [Hrng [Hgen Ho]]]. apply Hrest.
    rewrite Er. cbn [buffer_of].
    apply progress_out_snoc with (g := g) (w := w);
      [exact Hp | exact Hin | exact Hfs | exact Hgen | | exact Ho].
    rewrite Hrng. apply Hp.
Qed.

Lemma printed_trans (out out' : list string) (w0 w w' : World) :
  printed out w0 w -> printed out' w w' -> printed (out ++ out') w0 w'.
Proof.
  intros [Hfs [Hrng [Hgen Ho]]] [Hfs' [Hrng' [Hgen' Ho']]].
  unfold printed. rewrite Hfs', Hrng', Hgen', Ho', Ho, app_assoc.
  repeat split; assumption.
Qed.

Lemma ensure_output_dir_runs_out (w : World) :
  startable (fs w) ->
  runs ensure_output_dir w
    (fun _ w' =>
       nodes (fs w') = prepared_nodes (fs w)
       /\ read_only (fs w') = read_only (fs w)
       /\ generated w' = generated w
       /\ stdout w' = (stdout w ++ created_log (fs w))%list
       /\ progress_out [] (rng w) [] w' w').
Proof.
  intros Hstart.
  destruct (ensure_output_dir_runs w Hstart)
    as [[] [w' [E [Hready [Hnodes [Hro [Hgen Hrng]]]]]]].
  exists tt, w'. split; [exact E |].
  split; [exact Hnodes |]. split; [exact Hro |]. split; [exact Hgen |].
  split; [exact (ensure_output_dir_console _ E) |].
  split; [| now rewrite app_nil_r].
  split; [exact Hready |]. split; [| exact Hrng].
  unfold wrote. cbn [map rev app length]. repeat split. lia.
Qed.

End ConsoleFacts.

Section MainConsole.

Context {L : NumericBackend}.
Local Open Scope string_scope.

Ltac in_catalog :=
  unfold catalog_filenames;
  repeat (first [left; reflexivity | right]).

Ltac cutoff_listed :=
  unfold cutoff_frequencies; cbn [map fst In];
  repeat (first [left; reflexivity | right]).

Ltac next_step := first [apply runs_bind | apply fails_bind_r].

Ltac print_step :=
  next_step; apply runs_print_out;
  let w' := fresh "w" in
  let Hpr := fresh "Hpr" in
  let Hp' := fresh "Hp" in
  intros w' Hpr;
  lazymatch goal with
  | Hold : progress_out _ _ _ _ _ |- _ =>
      pose proof (progress_out_print Hold Hpr) as Hp'; clear Hold Hpr
  end.

Ltac tone_step Hgen :=
  next_step;
  let buf := fresh "buf" in
  let E := fresh "E" in
  let Hfit := fresh "Hfit" in
  let w' := fresh "w" in
  let Hp' := fresh "Hp" in
  destruct Hgen as [buf [E Hfit]];
  lazymatch goal with
  | Hold : progress_out _ _ _ _ _ |- _ =>
      eapply runs_weaken;
      [ eapply pure_entry_out;
        [exact E | exact Hfit | in_catalog | exact Hold]
      | cbv beta; intros _ w' Hp'; clear Hold E Hfit buf ]
  end.

Ltac noise_step Hnoise :=
  next_step;
  let w' := fresh "w" in
  let Hp' := fresh "Hp" in
  lazymatch goal with
  | Hold : progress_out _ _ _ _ _ |- _ =>
      eapply runs_weaken;
      [ eapply noise_entry_out;
        [exact Hnoise | cutoff_listed | in_catalog | exact Hold]
      | cbv beta; intros _ w' Hp'; clear Hold ]
  end.

(** A complete run, with what it prints and where it leaves the random
    generator. *)
Lemma main_runs_out (w : World) :
  startable (fs w) -> noise_available ->
  runs main w
    (fun _ w' =>
       let '(n50, n100, n200, n500) := noise_files (rng w) in
       nodes (fs w')
       = (rev (map file_node (catalog_files n50 n100 n200 n500))
          ++ prepared_nodes (fs w))%list
       /\ read_only (fs w') = read_only (fs w)
       /\ generated w' = (generated w + 23)%nat
       /\ rng w' = rng_after [50; 100; 200; 500]%R (rng w)
       /\ stdout w' = (stdout w ++ created_log (fs w) ++ run_log)%list).
Proof.
  intros Hstart Hnoise. unfold main.
  apply runs_bind.
  eapply runs_weaken; [apply ensure_output_dir_runs_out; exact Hstart |].
  intros _ w0 [Hnodes [Hro [Hgen [Hout0 Hp]]]].
  do 5 print_step.
  apply runs_bind. unfold test_frequencies. cbn [for_each].
  tone_step (sine_catalog 50 (1 / 2)).
  tone_step (sine_catalog 100 (1 / 2)).
  tone_step (sine_catalog 200 (1 / 2)).
  tone_step (sine_catalog 440 (1 / 2)).
  tone_step (sine_catalog 1000 (1 / 2)).
  tone_step (sine_catalog 5000 (1 / 2)).
  apply runs_ret.
  print_step.
  apply runs_bind. unfold cutoff_frequencies. cbn [for_each].
  noise_step Hnoise.
  noise_step Hnoise.
  noise_step Hnoise.
  noise_step Hnoise.
  apply runs_ret.
  print_step.
  apply runs_bind. unfold multi_tones. cbn [for_each].
  tone_step (multi_tone_catalog [100; 200; 300]%R
               [3 / 10; 2 / 10; 1 / 10]%R).
  tone_step (multi_tone_catalog [50; 100; 500; 1000]%R
               [25 / 100; 25 / 100; 15 / 100; 1 / 10]%R).
  tone_step (multi_tone_catalog [440; 880; 1320]%R
               [3 / 10; 2 / 10; 15 / 100]%R).
  apply runs_ret.
  print_step.
  apply runs_bind. unfold sweeps. cbn [for_each].
  tone_step (sweep_catalog 20 200 (1 / 2)).
  tone_step (sweep_catalog 100 5000 (1 / 2)).
  tone_step (sweep_catalog 5000 20000 (1 / 2)).
  apply runs_ret.
  print_step.
  destruct silence_catalog as [silence [Esil Hfit]].
  lazymatch goal with
  | Hold : progress_out _ _ _ _ _ |- _ =>
      eapply pure_entry_then_out;
      [exact Esil | exact Hfit | in_catalog | exact Hold |];
      clear Hold Esil Hfit silence
  end.
  intros ws Hps.
  print_step.
  apply runs_bind. unfold low_freqs. cbn [for_each].
  tone_step (sine_catalog 20 (1 / 2)).
  tone_step (sine_catalog 30 (1 / 2)).
  tone_step (sine_catalog 40 (1 / 2)).
  tone_step (sine_catalog 60 (1 / 2)).
  tone_step (sine_catalog 80 (1 / 2)).
  tone_step (sine_catalog 90 (1 / 2)).
  apply runs_ret.
  do 6 print_step.
  apply runs_print_out. intros wf Hpr.
  lazymatch goal with
  | Hold : progress_out _ _ _ _ _ |- _ =>
      destruct (progress_out_print Hold Hpr)
        as [[_ [[Hn [Hr Hg]] Hrng]] Hout]
  end.
  unfold noise_files.
  rewrite Hn, Hr, Hg, Hnodes, Hro, Hgen, Hout, Hout0, Hrng.
  split; [reflexivity |]. split; [reflexivity |]. split; [reflexivity |].
  split; [reflexivity |].
  rewrite <- app_assoc. do 2 apply f_equal. reflexivity.
Qed.

End MainConsole.

(** ** What a run of the driver leaves behind *)

Section RunOutcome.

Context {L : NumericBackend}.
Local Open Scope string_scope.

Lemma lookup_outside (p : string) (l : list (string * node)) :
  ~ In p (map fst l) -> Os.lookup p l = None.
Proof.
  induction l as [| [q n] l IH]; intros Hp; [reflexivity |].
  cbn [Os.lookup]. cbn [map fst In] in Hp.
  destruct (String.eqb_spec p q) as [-> | _].
  - exfalso. apply Hp. left. reflexivity.
  - apply IH. intros Hin. apply Hp. right. exact Hin.
Qed.

Lemma written_paths (files : list (string * list Z)) :
  map fst (rev (map file_node files)) = rev (map fst files).
Proof.
  rewrite map_rev, map_map. reflexivity.
Qed.

Lemma lookup_beside_catalog (n50 n100 n200 n500 : list Z)
    (base : list (string * node)) (p : string) :
  ~ In p (map output_path catalog_filenames) ->
  Os.lookup p
    (rev (map file_node (catalog_files n50 n100 n200 n500)) ++ base)%list
  = Os.lookup p base.
Proof.
  intros Hp. rewrite lookup_app, lookup_outside; [reflexivity |].
  rewrite written_paths, catalog_files_paths. intros Hin.
  apply Hp. apply in_rev. exact Hin.
Qed.

Lemma lookup_prepared (f : filesystem) (p : string) :
  p <> OUTPUT_DIR ->
  Os.lookup p (prepared_nodes f) = Os.lookup p (nodes f).
Proof.
  intros Hp. unfold prepared_nodes.
  destruct (Os.path_exists OUTPUT_DIR f); [reflexivity |].
  cbn [Os.lookup]. apply String.eqb_neq in Hp. now rewrite Hp.
Qed.

Lemma output_dir_not_in_catalog :
  ~ In OUTPUT_DIR (map output_path catalog_filenames).
Proof.
  cbn [In map catalog_filenames]. intros H.
  repeat (destruct H as [H | H]; [discriminate H |]). exact H.
Qed.

Lemma lookup_prepared_dir (f : filesystem) :
  startable f -> Os.lookup OUTPUT_DIR (prepared_nodes f) = Some Dir.
Proof.
  intros [_ [[Habsent | Hdir] _]]; unfold prepared_nodes, Os.path_exists.
  - rewrite Habsent. cbn [Os.lookup]. now rewrite String.eqb_refl.
  - rewrite Hdir. exact Hdir.
Qed.

Lemma catalog_entry_written (n50 n100 n200 n500 : list Z) (name : string) :
  In name catalog_filenames ->
  exists bytes,
    In (output_path name, bytes) (catalog_files n50 n100 n200 n500).
Proof.
  intros Hin.
  assert (Hp : In (output_path name)
                 (map fst (catalog_files n50 n100 n200 n500))).
  { rewrite catalog_files_paths. apply in_map, Hin. }
  apply in_map_iff in Hp. destruct Hp as [[p bytes] [Ep Hp]].
  cbn [fst] in Ep. subst p. exists bytes. exact Hp.
Qed.

(** The file system after a complete run lets [main] start again. *)
Lemma startable_after_run (f f' : filesystem)
    (n50 n100 n200 n500 : list Z) :
  startable f ->
  nodes f' = (rev (map file_node (catalog_files n50 n100 n200 n500))
              ++ prepared_nodes f)%list ->
  read_only f' = read_only f ->
  startable f' /\ Os.lookup OUTPUT_DIR (nodes f') = Some Dir.
Proof.
  intros Hstart Hnodes Hro.
  assert (Hdir : Os.lookup OUTPUT_DIR (nodes f') = Some Dir).
  { rewrite Hnodes, lookup_beside_catalog
      by exact output_dir_not_in_catalog.
    apply lookup_prepared_dir, Hstart. }
  split; [| exact Hdir].
  split; [rewrite Hro; apply Hstart |]. split; [right; exact Hdir |].
  apply Forall_forall. intros name Hin.
  destruct (catalog_entry_written n50 n100 n200 n500 Hin)
    as [bytes Hbytes].
  rewrite Hnodes, (@lookup_written _ _ _ bytes); [discriminate | | exact Hbytes].
  rewrite catalog_files_paths. apply catalog_filenames_NoDup.
Qed.

(** X16. A complete run prints, after the line of [ensure_output_dir] if
    the directory had to be created, the header, the six section titles,
    one [Generated:] line for each of the 23 files in the order in which
    they are written, and the closing summary. *)
Theorem main_console_log (w : World) :
  startable (fs w) -> noise_available ->
  exists w',
    main w = (Ok tt, w')
    /\ stdout w' = (stdout w ++ created_log (fs w) ++ run_log)%list
    /\ filter (String.prefix "Generated: ") run_log
       = map generated_line catalog_filenames.
Proof.
  intros Hstart Hnoise.
  destruct (main_runs_out w Hstart Hnoise) as [[] [w' [Erun Hpost]]].
  destruct (noise_files (rng w)) as [[[n50 n100] n200] n500].
  destruct Hpost as [_ [_ [_ [_ Hout]]]].
  exists w'. split; [exact Erun |]. split; [exact Hout | reflexivity].
Qed.

(** X17. A complete run touches nothing but the output directory and the 23
    catalog paths: every other path is bound as before, the file system
    is as writable as before, and the random generator has been advanced
    by exactly the four noise draws, in the order of the cutoffs. *)
Theorem main_touches_only_catalog (w : World) :
  startable (fs w) -> noise_available ->
  exists w',
    main w = (Ok tt, w')
    /\ (forall p, p <> OUTPUT_DIR ->
          ~ In p (map output_path catalog_filenames) ->
          Os.lookup p (nodes (fs w')) = Os.lookup p (nodes (fs w)))
    /\ read_only (fs w') = read_only (fs w)
    /\ rng w' = rng_after [50; 100; 200; 500]%R (rng w).
Proof.
  intros Hstart Hnoise.
  destruct (main_runs_out w Hstart Hnoise) as [[] [w' [Erun Hpost]]].
  destruct (noise_files (rng w)) as [[[n50 n100] n200] n500].
  destruct Hpost as [Hnodes [Hro [_ [Hrng _]]]].
  exists w'. split; [exact Erun |].
  split; [| split; assumption].
  intros p Hdir Hcat. rewrite Hnodes, lookup_beside_catalog by exact Hcat.
  apply lookup_prepared, Hdir.
Qed.

(** X18. [main] can be run again over its own output: the second run
    returns too, creates no directory (it prints [run_log] only), brings
    the count of buffers to 46, and leaves in every file that is not a
    noise file the bytes the first run had left there. *)
Theorem main_can_run_again (w : World) :
  startable (fs w) -> noise_available ->
  exists w1 w2,
    main w = (Ok tt, w1)
    /\ main w1 = (Ok tt, w2)
    /\ stdout w2 = (stdout w1 ++ run_log)%list
    /\ generated w2 = (generated w + 46)%nat
    /\ forall name,
         In name catalog_filenames -> ~ In name noise_filenames ->
         exists bytes,
           Os.lookup (output_path name) (nodes (fs w1)) = Some (File bytes)
           /\ Os.lookup (output_path name) (nodes (fs w2))
              = Some (File bytes).
Proof.
  intros Hstart Hnoise.
  destruct (main_runs_out w Hstart Hnoise) as [[] [w1 [E1 P1]]].
  destruct (noise_files (rng w)) as [[[a b] c] d].
  destruct P1 as [Hn1 [Hr1 [Hg1 _]]].
  assert (Hagain : startable (fs w1)
                   /\ Os.lookup OUTPUT_DIR (nodes (fs w1)) = Some Dir)
    by (eapply startable_after_run; eassumption).
  destruct Hagain as [Hstart1 Hdir1].
  destruct (main_runs_out w1 Hstart1 Hnoise) as [[] [w2 [E2 P2]]].
  destruct (noise_files (rng w1)) as [[[a' b'] c'] d'].
  destruct P2 as [Hn2 [_ [Hg2 [_ Hout2]]]].
  exists w1, w2. split; [exact E1 |]. split; [exact E2 |].
  split; [| split].
  - rewrite Hout2. unfold created_log, Os.path_exists.
    now rewrite Hdir1.
  - rewrite Hg2, Hg1. lia.
  - intros name Hin Hnot.
    destruct (deterministic_entry Hin Hnot) as [bytes Hbytes].
    exists bytes. rewrite Hn1, Hn2.
    split; (apply lookup_written; [| apply Hbytes]);
      rewrite catalog_files_paths; apply catalog_filenames_NoDup.
Qed.

End RunOutcome.

(** ** Runs that stop early *)

Section EarlyStop.

Context {L : NumericBackend}.
Local Open Scope string_scope.

Ltac in_catalog :=
  unfold catalog_filenames;
  repeat (first [left; reflexivity | right]).

Ltac next_step := first [apply runs_bind | apply fails_bind_r].

Ltac print_step :=
  next_step; apply runs_print_out;
  let w' := fresh "w" in
  let Hpr := fresh "Hpr" in
  let Hp' := fresh "Hp" in
  intros w' Hpr;
  lazymatch goal with
  | Hold : progress_out _ _ _ _ _ |- _ =>
      pose proof (progress_out_print Hold Hpr) as Hp'; clear Hold Hpr
  | _ =>
      lazymatch type of Hpr with
      | printed _ ?v _ =>
          lazymatch goal with
          | Hold : printed _ _ v |- _ =>
              pose proof (@printed_trans _ _ _ _ _ _ Hold Hpr) as Hp';
              clear Hold Hpr
          end
      end
  end.

Ltac tone_step Hgen :=
  next_step;
  let buf := fresh "buf" in
  let E := fresh "E" in
  let Hfit := fresh "Hfit" in
  let w' := fresh "w" in
  let Hp' := fresh "Hp" in
  destruct Hgen as [buf [E Hfit]];
  lazymatch goal with
  | Hold : progress_out _ _ _ _ _ |- _ =>
      eapply runs_weaken;
      [ eapply pure_entry_out;
        [exact E | exact Hfit | in_catalog | exact Hold]
      | cbv beta; intros _ w' Hp'; clear Hold E Hfit buf ]
  end.

(** X19. When the output path exists but the first file cannot be opened
    for writing (a read-only file system, a regular file in the place of
    the directory, a directory in the place of the file), [main] raises
    that error after the header and the first section title have been
    printed and one buffer has been generated; no file is written and
    the remaining 22 entries are not attempted. *)
Theorem main_stops_at_first_write_failure (w : World) (n : node)
    (e : exn) :
  Os.lookup OUTPUT_DIR (nodes (fs w)) = Some n ->
  Os.open_wb (output_path "50hz_pure_tone.wav") (fs w) = Raise e ->
  exists w',
    main w = (Raise e, w')
    /\ fs w' = fs w /\ rng w' = rng w
    /\ generated w' = S (generated w)
    /\ stdout w' = (stdout w ++ firstn 5 run_log)%list.
Proof.
  intros Hdir Hopen.
  assert (Hfails : fails main w e
            (fun w' => fs w' = fs w /\ rng w' = rng w
                       /\ generated w' = S (generated w)
                       /\ stdout w' = (stdout w ++ firstn 5 run_log)%list)).
  2:{ destruct Hfails as [w' [E HQ]]. exists w'. split; assumption. }
  unfold main. apply fails_bind_r. exists tt, w.
  split; [now apply ensure_output_dir_present with n |].
  assert (Hp : printed [] w w).
  { repeat split. now rewrite app_nil_r. }
  do 5 print_step.
  apply fails_bind_l. unfold test_frequencies. cbn [for_each].
  apply fails_bind_l.
  destruct (sine_catalog 50 (1 / 2)) as [buf [E _]].
  apply fails_bind_r. apply runs_lift with (a := buf); [exact E |].
  apply fails_bind_r. eexists tt, _. split; [reflexivity |].
  unfold save_wav. apply fails_bind_l.
  lazymatch goal with
  | Hold : printed _ _ _ |- _ => destruct Hold as [Hfs [Hrng [Hgen Hout]]]
  end.
  eexists. split.
  - unfold wavfile_write. fold (output_path "50hz_pure_tone.wav").
    cbn [fs]. rewrite Hfs, Hopen. reflexivity.
  - cbn [fs rng generated stdout]. rewrite ?Hfs, ?Hrng, ?Hgen, ?Hout.
    repeat split.
Qed.

(** X20. When the noise generator raises at the first cutoff, [main]
    raises that error: the six pure tones of the first loop have been
    written and announced, the title of the noise section is the last
    line printed, the random generator has been advanced by the failed
    draw, and none of the 17 later files exists. *)
Theorem main_stops_when_noise_fails (w : World) (e : exn) :
  startable (fs w) ->
  fst (catalog_noise 50 (rng w)) = Raise e ->
  exists w',
    main w = (Raise e, w')
    /\ nodes (fs w')
       = (rev (map file_node first_tone_files)
          ++ prepared_nodes (fs w))%list
    /\ generated w' = (generated w + 6)%nat
    /\ rng w' = snd (catalog_noise 50 (rng w))
    /\ stdout w'
       = (stdout w ++ created_log (fs w) ++ firstn 12 run_log)%list.
Proof.
  intros Hstart Hraise.
  assert (Hfails : fails main w e
            (fun w' =>
               nodes (fs w')
               = (rev (map file_node first_tone_files)
                  ++ prepared_nodes (fs w))%list
               /\ generated w' = (generated w + 6)%nat
               /\ rng w' = snd (catalog_noise 50 (rng w))
               /\ stdout w'
                  = (stdout w ++ created_log (fs w)
                     ++ firstn 12 run_log)%list)).
  2:{ destruct Hfails as [w' [E HQ]]. exists w'. split; assumption. }
  unfold main. apply fails_bind_r.
  eapply runs_weaken; [apply ensure_output_dir_runs_out; exact Hstart |].
  intros _ w0 [Hnodes [Hro [Hgen [Hout0 Hp]]]].
  do 5 print_step.
  apply fails_bind_r. unfold test_frequencies. cbn [for_each].
  tone_step (sine_catalog 50 (1 / 2)).
  tone_step (sine_catalog 100 (1 / 2)).
  tone_step (sine_catalog 200 (1 / 2)).
  tone_step (sine_catalog 440 (1 / 2)).
  tone_step (sine_catalog 1000 (1 / 2)).
  tone_step (sine_catalog 5000 (1 / 2)).
  apply runs_ret.
  print_step.
  apply fails_bind_l. unfold cutoff_frequencies. cbn [for_each].
  do 2 apply fails_bind_l.
  lazymatch goal with
  | Hold : progress_out _ _ _ _ _ |- _ =>
      destruct Hold as [[_ [[Hn [Hr Hg]] Hrng]] Hout]
  end.
  eexists. split.
  - rewrite generate_lowpass_noise_draw.
    fold (catalog_noise 50 (rng w12)). rewrite Hrng, Hraise. reflexivity.
  - cbn [set_rng fs rng generated stdout].
    rewrite Hn, Hg, Hnodes, Hgen, Hout, Hout0.
    split; [reflexivity |]. split; [reflexivity |].
    split; [reflexivity |].
    rewrite <- app_assoc. do 2 apply f_equal. reflexivity.
Qed.

End EarlyStop.

Lemma main_console_log_witness :
  exists w',
    main empty_world = (Ok tt, w')
    /\ stdout w'
       = ("Created directory: test_audio"%string :: run_log).
Proof.
  destruct (main_console_log empty_world empty_world_startable
              exact_noise_available) as [w' [Erun [Hout _]]].
  exists w'. split; [exact Erun | exact Hout].
Defined.

Lemma main_touches_only_catalog_witness :
  exists w',
    main empty_world = (Ok tt, w')
    /\ Os.lookup "notes.txt" (nodes (fs w'))
       = Os.lookup "notes.txt" (nodes (fs empty_world))
    /\ read_only (fs w') = false.
Proof.
  destruct (main_touches_only_catalog empty_world empty_world_startable
              exact_noise_available) as [w' [Erun [Hframe [Hro _]]]].
  exists w'. split; [exact Erun |]. split; [| exact Hro].
  apply Hframe; [discriminate |].
  cbn [In map catalog_filenames]. intros H.
  repeat (destruct H as [H | H]; [discriminate H |]). exact H.
Defined.

Lemma main_can_run_again_witness :
  exists w1 w2,
    main empty_world = (Ok tt, w1)
    /\ main w1 = (Ok tt, w2)
    /\ stdout w2 = (stdout w1 ++ run_log)%list
    /\ generated w2 = 46%nat.
Proof.
  destruct (main_can_run_again empty_world empty_world_startable
              exact_noise_available)
    as [w1 [w2 [E1 [E2 [Hout [Hgen _]]]]]].
  exists w1, w2. split; [exact E1 |]. split; [exact E2 |].
  split; [exact Hout | exact Hgen].
Defined.

Lemma main_stops_at_first_write_failure_witness :
  exists w',
    main locked_world = (Raise PermissionError, w')
    /\ fs w' = fs locked_world
    /\ generated w' = 1%nat
    /\ stdout w' = firstn 5 run_log.
Proof.
  destruct (@main_stops_at_first_write_failure exact_backend locked_world
              Dir PermissionError eq_refl eq_refl)
    as [w' [Erun [Hfs [_ [Hgen Hout]]]]].
  exists w'. split; [exact Erun |]. split; [exact Hfs |].
  split; [exact Hgen | exact Hout].
Defined.

Lemma failing_world_startable : startable (fs failing_world).
Proof.
  split; [reflexivity |]. split; [left; reflexivity |].
  apply Forall_forall. intros name _. discriminate.
Qed.

Lemma failing_world_noise :
  fst (catalog_noise (L := failing_backend) 50 (rng failing_world))
  = Raise ValueError.
Proof.
  unfold catalog_noise, noise_draw.
  cbn [random_normal butter failing_backend].
  rewrite catalog_sample_count, zeros_ok by lia. reflexivity.
Qed.

Lemma main_stops_when_noise_fails_witness :
  exists w',
    main failing_world = (Raise ValueError, w')
    /\ nodes (fs w')
       = (rev (map file_node (first_tone_files (L := failing_backend)))
          ++ [(OUTPUT_DIR, Dir)])%list
    /\ generated w' = 6%nat.
Proof.
  destruct (@main_stops_when_noise_fails failing_backend failing_world
              ValueError failing_world_startable failing_world_noise)
    as [w' [Erun [Hnodes [Hgen _]]]].
  exists w'. split; [exact Erun |]. split; [exact Hnodes | exact Hgen].
Defined.
